(** * am-i-home: the HomeStation router client

    A shallow embedding of [internal/router]: the MAC canonicaliser
    ([normalizeMAC], [MatchMAC]), the credential hasher ([pbkdf2Hex]), the
    login handshake ([tryLogin]), the host-table fetch ([fetchHostTbl]) and
    the facade [ListConnected], with the properties the specification
    states about them; and of [internal/cli]: the table printer
    ([PrintStructTable], [padRight]) and the commands ([ListDevices],
    [ListActive], [CheckByMatcher]), with further properties of both
    packages.

    Go strings are byte sequences; they are modelled by [string], whose
    characters are the 256 values of [ascii]. *)

From Stdlib Require Import ZArith List Ascii String Lia Bool.
From Stdlib Require PrimFloat PrimInt63 Uint63.
From Stdlib Require DecimalString.
From stdpp Require Import base gmap strings.
Import ListNotations.

Local Open Scope Z_scope.

(* ===================================================================== *)
(** ** Bytes *)
(* ===================================================================== *)

(** [[]byte(s)]: the bytes of a string, each a number in [0, 256). *)
Definition bytes_of_string (s : string) : list Z :=
  List.map (fun c => Z.of_N (N_of_ascii c)) (list_ascii_of_string s).

(* ===================================================================== *)
(** ** crypto/sha256, crypto/hmac and x/crypto/pbkdf2

    The repository calls these library functions with fixed parameters;
    they are written out here (FIPS 180-4, RFC 2104, RFC 8018) so that the
    hasher is a function that computes. *)
(* ===================================================================== *)

Module SHA256.

(** Words are 32-bit; they are held in machine integers of 63 bits and
    masked after each operation that can carry out of 32 bits. *)
Definition word : Set := PrimInt63.int.

Definition mask32 : word := Eval vm_compute in Uint63.of_Z 0xFFFFFFFF.
Definition add32 (a b : word) : word := PrimInt63.land (PrimInt63.add a b) mask32.
Definition shr (n : Z) (x : word) : word := PrimInt63.lsr x (Uint63.of_Z n).
Definition rotr (n : Z) (x : word) : word :=
  PrimInt63.land
    (PrimInt63.lor (PrimInt63.lsr x (Uint63.of_Z n))
                   (PrimInt63.lsl x (Uint63.of_Z (32 - n))))
    mask32.
Definition xor (a b : word) : word := PrimInt63.lxor a b.
Definition and (a b : word) : word := PrimInt63.land a b.
Definition not32 (x : word) : word := xor x mask32.

Definition Ch (x y z : word) : word := xor (and x y) (and (not32 x) z).
Definition Maj (x y z : word) : word := xor (xor (and x y) (and x z)) (and y z).
Definition bsig0 (x : word) : word := xor (xor (rotr 2 x) (rotr 13 x)) (rotr 22 x).
Definition bsig1 (x : word) : word := xor (xor (rotr 6 x) (rotr 11 x)) (rotr 25 x).
Definition ssig0 (x : word) : word := xor (xor (rotr 7 x) (rotr 18 x)) (shr 3 x).
Definition ssig1 (x : word) : word := xor (xor (rotr 17 x) (rotr 19 x)) (shr 10 x).

(** The constants of FIPS 180-4 are fractional parts of roots of the
    first primes, thirty-two bits each: of the cube roots of the first
    sixty-four primes for [K], of the square roots of the first eight for
    the initial registers. *)
Definition is_prime (n : nat) : bool :=
  forallb (fun d => negb (Nat.eqb (Nat.modulo n d) 0)) (seq 2 (n - 2)).

Definition primes : list Z :=
  List.map Z.of_nat (List.filter is_prime (seq 2 310)).

(** The integer cube root of [n], one bit at a time from bit [bits - 1]. *)
Fixpoint cube_root (bits : nat) (n r : Z) : Z :=
  match bits with
  | O => r
  | S b =>
      let r' := r + Z.shiftl 1 (Z.of_nat b) in
      cube_root b n (if r' * r' * r' <=? n then r' else r)
  end.

Definition frac_cbrt (p : Z) : word :=
  Uint63.of_Z (Z.land (cube_root 36 (Z.shiftl p 96) 0) 0xFFFFFFFF).
Definition frac_sqrt (p : Z) : word :=
  Uint63.of_Z (Z.land (Z.sqrt (Z.shiftl p 64)) 0xFFFFFFFF).

Definition K : list word := Eval vm_compute in List.map frac_cbrt primes.

(** The eight working registers. *)
Record regs := Regs { ra : word; rb : word; rc : word; rd : word;
                      re : word; rf : word; rg : word; rh : word }.

Definition init : regs :=
  Eval vm_compute in
    Regs (frac_sqrt 2) (frac_sqrt 3) (frac_sqrt 5) (frac_sqrt 7)
         (frac_sqrt 11) (frac_sqrt 13) (frac_sqrt 17) (frac_sqrt 19).

(** Padding: a 1 bit, zeros up to 56 mod 64, then the bit length on
    eight bytes, big-endian. *)
Definition be_bytes (width : nat) (x : Z) : list Z :=
  List.map (fun i => Z.land (Z.shiftr x (8 * Z.of_nat i)) 0xFF) (rev (seq 0 width)).

Definition pad (msg : list Z) : list Z :=
  let len := Z.of_nat (List.length msg) in
  let zeros := Z.to_nat ((55 - len) mod 64) in
  msg ++ [0x80] ++ repeat 0 zeros ++ be_bytes 8 (8 * len).

(** Four bytes make a word, big-endian. *)
Fixpoint words (bs : list Z) : list word :=
  match bs with
  | b0 :: b1 :: b2 :: b3 :: rest =>
      Uint63.of_Z (Z.shiftl b0 24 + Z.shiftl b1 16 + Z.shiftl b2 8 + b3) :: words rest
  | _ => []
  end.

Definition zero : word := Eval vm_compute in Uint63.of_Z 0.

(** The message schedule: sixteen words extended to sixty-four. *)
Definition extend (w : list word) : list word :=
  fold_left
    (fun acc t =>
       acc ++ [ add32 (add32 (ssig1 (nth (t - 2) acc zero)) (nth (t - 7) acc zero))
                      (add32 (ssig0 (nth (t - 15) acc zero)) (nth (t - 16) acc zero)) ])
    (seq 16 48) w.

Definition round (r : regs) (kw : word * word) : regs :=
  let t1 := add32 (add32 (add32 (rh r) (bsig1 (re r)))
                         (add32 (Ch (re r) (rf r) (rg r)) (fst kw))) (snd kw) in
  let t2 := add32 (bsig0 (ra r)) (Maj (ra r) (rb r) (rc r)) in
  Regs (add32 t1 t2) (ra r) (rb r) (rc r) (add32 (rd r) t1) (re r) (rf r) (rg r).

Definition compress (h : regs) (block : list Z) : regs :=
  let r := fold_left round (combine K (extend (words block))) h in
  Regs (add32 (ra h) (ra r)) (add32 (rb h) (rb r))
       (add32 (rc h) (rc r)) (add32 (rd h) (rd r))
       (add32 (re h) (re r)) (add32 (rf h) (rf r))
       (add32 (rg h) (rg r)) (add32 (rh h) (rh r)).

(** The blocks are consumed sixty-four bytes at a time; [n] bounds the
    number of blocks. *)
Fixpoint blocks (n : nat) (h : regs) (bs : list Z) : regs :=
  match n, bs with
  | S n', _ :: _ => blocks n' (compress h (firstn 64 bs)) (skipn 64 bs)
  | _, _ => h
  end.

Definition word_bytes (x : word) : list Z :=
  let z := Uint63.to_Z x in
  [ Z.land (Z.shiftr z 24) 0xFF; Z.land (Z.shiftr z 16) 0xFF;
    Z.land (Z.shiftr z 8) 0xFF; Z.land z 0xFF ].

Definition Size : nat := 32.
Definition BlockSize : nat := 64.

Definition Sum256 (msg : list Z) : list Z :=
  let p := pad msg in
  let r := blocks (List.length p) init p in
  word_bytes (ra r) ++ word_bytes (rb r) ++ word_bytes (rc r) ++ word_bytes (rd r)
  ++ word_bytes (re r) ++ word_bytes (rf r) ++ word_bytes (rg r) ++ word_bytes (rh r).

End SHA256.

Module HMAC.

Definition xor_with (c : Z) (bs : list Z) : list Z := List.map (Z.lxor c) bs.

(** [hmac.New(sha256.New, key)]: a key longer than the block size is
    hashed first, then the key is padded with zeros to the block size. *)
Definition block_key (key : list Z) : list Z :=
  let k := if (SHA256.BlockSize <? List.length key)%nat then SHA256.Sum256 key else key in
  k ++ repeat 0 (SHA256.BlockSize - List.length k).

Definition Sum (key msg : list Z) : list Z :=
  let k := block_key key in
  SHA256.Sum256 (xor_with 0x5c k ++ SHA256.Sum256 (xor_with 0x36 k ++ msg)).

End HMAC.

Module PBKDF2.

Definition xor_bytes (a b : list Z) : list Z :=
  List.map (fun p => Z.lxor (fst p) (snd p)) (combine a b).

(** The inner loop [for n := 2; n <= iter; n++]: [U = PRF(U)], [T ^= U]. *)
Fixpoint rounds (password : list Z) (n : nat) (U T : list Z) : list Z :=
  match n with
  | O => T
  | S n' =>
      let U' := HMAC.Sum password U in
      rounds password n' U' (xor_bytes T U')
  end.

Definition block (password salt : list Z) (iter : nat) (i : nat) : list Z :=
  let U1 := HMAC.Sum password (salt ++ SHA256.be_bytes 4 (Z.of_nat i)) in
  rounds password (iter - 1) U1 U1.

(** [pbkdf2.Key(password, salt, iter, keyLen, sha256.New)]. *)
Definition Key (password salt : list Z) (iter keyLen : nat) : list Z :=
  let hashLen := SHA256.Size in
  let numBlocks := ((keyLen + hashLen - 1) / hashLen)%nat in
  firstn keyLen (flat_map (block password salt iter) (seq 1 numBlocks)).

End PBKDF2.

(** [hex.EncodeToString]: two digits of [0123456789abcdef] per byte, the
    high nibble first. *)
Definition hextable : string := "0123456789abcdef".

Definition hexdigit (n : Z) : ascii :=
  match String.get (Z.to_nat n) hextable with
  | Some c => c
  | None => "0"%char
  end.

Fixpoint hex_EncodeToString (bs : list Z) : string :=
  match bs with
  | [] => EmptyString
  | b :: rest =>
      String (hexdigit (Z.shiftr b 4))
        (String (hexdigit (Z.land b 0x0F)) (hex_EncodeToString rest))
  end.

(** pbkdf2Hex computes PBKDF2-SHA256 and returns the result as lowercase
    hex; iterations: 1000, keyLen: 16 bytes. *)
Definition pbkdf2Hex (password salt : string) : string :=
  let key := PBKDF2.Key (bytes_of_string password) (bytes_of_string salt) 1000 16 in
  hex_EncodeToString key.

Local Open Scope string_scope.

(* ===================================================================== *)
(** ** Go values the client handles *)
(* ===================================================================== *)

(** The [error] values the package builds: [errors.New] and [fmt.Errorf]
    without [%w] carry a text; [fmt.Errorf] with [%w] carries the formatted
    text and the wrapped error.  Errors of the libraries are values of this
    type as well. *)
Inductive error : Type :=
| errorString (s : string)
| wrapError (msg : string) (err : error).

(** The [Error()] method. *)
Definition Error (e : error) : string :=
  match e with
  | errorString s => s
  | wrapError msg _ => msg
  end.

Definition errors_New (text : string) : error := errorString text.

(** [fmt.Errorf(prefix + "%w", err)]. *)
Definition fmt_Errorf_w (prefix : string) (err : error) : error :=
  wrapError (prefix ++ Error err) err.

(** [fmt.Errorf(prefix + "%s", s)]. *)
Definition fmt_Errorf_s (prefix : string) (s : string) : error :=
  errorString (prefix ++ s).

(** What [json.Unmarshal] stores in an [any]: nil, bool, float64, string,
    [[]any] and [map[string]any]. *)
#[local] Unset Elimination Schemes.
Inductive any : Type :=
| anyNil
| anyBool (b : bool)
| anyFloat64 (f : PrimFloat.float)
| anyString (s : string)
| anySlice (l : list any)
| anyMap (m : gmap string any).
#[local] Set Elimination Schemes.

(** The type assertion [v.(string)] on the result of a map index: a missing
    key yields the nil interface, on which the assertion fails. *)
Definition assert_string (v : option any) : option string :=
  match v with
  | Some (anyString s) => Some s
  | _ => None
  end.

(** [strings.Contains]: [substr] occurs in [s] at some byte offset. *)
Fixpoint strings_Contains (s substr : string) : bool :=
  String.prefix substr s ||
  match s with
  | EmptyString => false
  | String _ s' => strings_Contains s' substr
  end.

(** Device represents a device connected to the router. *)
Record Device := mkDevice {
  MAC : string;
  IP : string;
  Hostname : string;
  Active : bool
}.

Record saltResp := mkSaltResp {
  saltResp_Error : string;
  Salt : string;
  SaltWebUI : string
}.

Record hostEntry := mkHostEntry {
  Physaddress : string;
  Ipaddress : string;
  hostEntry_Hostname : string;
  hostEntry_Active : string
}.

Record hostTblData := mkHostTblData { HostTbl : list hostEntry }.

Record hostTblResp := mkHostTblResp {
  hostTblResp_Error : string;
  Message : string;
  Data : hostTblData;
  Token : string
}.

(** [url.Values] and [http.Header]: [map[string][]string]. *)
Abbreviation Values := (gmap string (list string)).

Definition Values_Set (key value : string) (v : Values) : Values :=
  <[key := [value]]> v.

Record Request := mkRequest {
  Method : string;
  URL : string;
  Header : Values;
  Body : option string
}.

Definition Header_Set (key value : string) (req : Request) : Request :=
  mkRequest (Method req) (URL req) (Values_Set key value (Header req)) (Body req).

(** HomeStationClient implements RouterClient for Vodafone HomeStation-like
    routers.  The [*http.Client] with its cookie jar is part of the world
    the requests run in. *)
Record HomeStationClient := mkClient {
  baseURL : string;
  user : string;
  pass : string
}.

(* ===================================================================== *)
(** ** The MAC canonicaliser *)
(* ===================================================================== *)

Definition byte_of (c : ascii) : Z := Z.of_N (N_of_ascii c).
Definition ascii_of_byte (b : Z) : ascii := ascii_of_N (Z.to_N (b mod 256)).

(** normalizeMAC returns a canonical MAC format used for comparisons:
    lowercase with no separators.  The loop appends to [b] byte by byte. *)
Fixpoint normalizeMAC (mac : string) : string :=
  match mac with
  | EmptyString => EmptyString
  | String c rest =>
      if (Ascii.eqb c ":" || Ascii.eqb c "-" || Ascii.eqb c "." || Ascii.eqb c " ")%char%bool
      then normalizeMAC rest
      else
        let c' :=
          if ((byte_of "A"%char <=? byte_of c)%Z && (byte_of c <=? byte_of "Z"%char)%Z)%bool
          then ascii_of_byte (byte_of c - byte_of "A"%char + byte_of "a"%char)%Z
          else c in
        String c' (normalizeMAC rest)
  end.

(** MatchMAC compares two MAC addresses for equality after normalization. *)
Definition MatchMAC (a b : string) : bool :=
  String.eqb (normalizeMAC a) (normalizeMAC b).

(* ===================================================================== *)
(** ** The world the client runs in *)
(* ===================================================================== *)

(** What the package takes from outside: the network with the router
    behind it and the client's cookie jar ([World], advanced by every
    request), and the library functions whose results depend on text the
    router sends.

    - [url_Parse_error u] is the error of [url.Parse(u)], if any; it is the
      one way [http.NewRequest] fails for the methods used here.
    - [Values_Encode] is [url.Values.Encode].
    - [client_Do] is [h.client.Do(req)] followed by
      [io.ReadAll(resp.Body)], whose error the code drops, and
      [resp.Body.Close()]: a transport error, or the bytes read.
    - [json_Unmarshal_*] is [json.Unmarshal] into a fresh value of the
      given type: the decoding error, or the decoded value.  A struct
      field the text does not mention keeps its zero value, the empty
      string; the text null leaves the map nil, which is the empty map
      to every index expression. *)
Class Runtime := {
  World : Type;
  url_Parse_error : string -> option error;
  Values_Encode : Values -> string;
  client_Do : Request -> World -> (error + string) * World;
  json_Unmarshal_saltResp : string -> error + saltResp;
  json_Unmarshal_map : string -> error + gmap string any;
  json_Unmarshal_hostTblResp : string -> error + hostTblResp
}.

(** The calls a run makes, in order: a request handed to [doPostForm] or
    [doGet], and a call of the hasher. *)
Inductive Event : Type :=
| EvPostForm (u : string) (form : Values)
| EvGet (u : string)
| EvHash (password salt : string).

Section Client.

Context {rt : Runtime}.

(** A computation threads the world and logs its calls. *)
Definition M (A : Type) : Type := World -> A * World * list Event.

Definition ret {A : Type} (a : A) : M A := fun w => (a, w, []).

Definition bind {A B : Type} (m : M A) (k : A -> M B) : M B :=
  fun w =>
    let '(a, w1, t1) := m w in
    let '(b, w2, t2) := k a w1 in
    (b, w2, (t1 ++ t2)%list).

Definition emit (e : Event) : M unit := fun w => (tt, w, [e]).

Definition roundTrip (req : Request) : M (error + string) :=
  fun w => let '(r, w') := client_Do req w in (r, w', []).

Notation "'let*' x ':=' c1 'in' c2" := (bind c1 (fun x => c2))
  (at level 10, x name, c1 at level 100, c2 at level 200).

Definition http_NewRequest (method u : string) (body : option string)
  : error + Request :=
  match url_Parse_error u with
  | Some err => inl err
  | None => inr (mkRequest method u ∅ body)
  end.

Definition setCommonHeaders (h : HomeStationClient) (req : Request) : Request :=
  let req := Header_Set "Accept" "*/*" req in
  let req := Header_Set "User-Agent" "Mozilla/5.0 (X11; Linux x86_64) AppleWebKit/537.36 (KHTML, like Gecko) Chrome/120.0.0.0 Safari/537.36" req in
  let req := Header_Set "Referer" (baseURL h ++ "/") req in
  Header_Set "X-Requested-With" "XMLHttpRequest" req.

(** doPostForm sends a POST with form-encoded body and returns the body
    bytes, or the error.  (The [*http.Response] it also returns is dropped
    by every caller.) *)
Definition doPostForm (h : HomeStationClient) (u : string) (form : Values)
  : M (error + string) :=
  let* _ := emit (EvPostForm u form) in
  let bodyStr := Values_Encode form in
  match http_NewRequest "POST" u (Some bodyStr) with
  | inl err => ret (inl err)
  | inr req =>
      let req := setCommonHeaders h req in
      let req := Header_Set "Content-Type" "application/x-www-form-urlencoded; charset=UTF-8" req in
      roundTrip req
  end.

(** doGet sends a GET with common headers and returns the body bytes, or
    the error. *)
Definition doGet (h : HomeStationClient) (u : string) : M (error + string) :=
  let* _ := emit (EvGet u) in
  match http_NewRequest "GET" u None with
  | inl err => ret (inl err)
  | inr req =>
      let req := setCommonHeaders h req in
      roundTrip req
  end.

(** The hasher as the login calls it: the call is logged. *)
Definition call_pbkdf2Hex (password salt : string) : M string :=
  let* _ := emit (EvHash password salt) in
  ret (pbkdf2Hex password salt).

Definition loginURL (h : HomeStationClient) : string :=
  baseURL h ++ "/api/v1/session/login".
Definition menuURL (h : HomeStationClient) : string :=
  baseURL h ++ "/api/v1/session/menu".
Definition hostTblURL (h : HomeStationClient) : string :=
  baseURL h ++ "/api/v1/host/hostTbl".
Definition logoutURL (h : HomeStationClient) : string :=
  baseURL h ++ "/api/v1/session/logout".

(** activateSession makes a request to finalize the login session; its
    result is dropped. *)
Definition activateSession (h : HomeStationClient) : M unit :=
  let* _ := doGet h (menuURL h) in ret tt.

(** The two forms of the login: the user name and a password. *)
Definition loginForm (h : HomeStationClient) (password : string) : Values :=
  Values_Set "password" password (Values_Set "username" (user h) ∅).

(** tryLogin performs the two-step login using the salt and hashed
    password.  [None] is Go's [nil] error. *)
Definition tryLogin (h : HomeStationClient) : M (option error) :=
  let* r := doPostForm h (loginURL h) (loginForm h "seeksalthash") in
  match r with
  | inl err => ret (Some (fmt_Errorf_w "failed requesting salt: " err))
  | inr body =>
  match json_Unmarshal_saltResp body with
  | inl err => ret (Some (fmt_Errorf_w "failed parsing salt response: " err))
  | inr saltResponse =>
  let salt := Salt saltResponse in
  let saltWebUI := SaltWebUI saltResponse in
  if String.eqb salt "" then
    ret (Some (errors_New "no salt returned from router"))
  else if String.eqb saltWebUI "" then
    ret (Some (errors_New "no saltwebui returned from router"))
  else
  let* hash1 := call_pbkdf2Hex (pass h) salt in
  let* finalHash := call_pbkdf2Hex hash1 saltWebUI in
  let* r2 := doPostForm h (loginURL h) (loginForm h finalHash) in
  match r2 with
  | inl err => ret (Some (fmt_Errorf_w "failed posting hashed password: " err))
  | inr resp2body =>
  let rejected : M (option error) :=
    ret (Some (errors_New "login failed with provided credentials")) in
  let check_message (jr : gmap string any) : M (option error) :=
    match assert_string (jr !! "message") with
    | Some msg =>
        if strings_Contains msg "MSG_LOGIN_150"
        then ret (Some (fmt_Errorf_s "An active session exists. Logout first. " msg))
        else rejected
    | None => rejected
    end in
  match json_Unmarshal_map resp2body with
  | inl _ => rejected
  | inr jr =>
      match assert_string (jr !! "error") with
      | Some e =>
          if String.eqb e "ok"
          then let* _ := activateSession h in ret None
          else check_message jr
      | None => check_message jr
      end
  end
  end
  end
  end.

(** The loop body of fetchHostTbl: one host record becomes one Device. *)
Definition deviceOf (e : hostEntry) : Device :=
  let active := if String.eqb (hostEntry_Active e) "true" then true else false in
  mkDevice (Physaddress e) (Ipaddress e) (hostEntry_Hostname e) active.

Definition fetchHostTbl (h : HomeStationClient) : M (list Device * option error) :=
  let* r := doGet h (hostTblURL h) in
  match r with
  | inl err => ret ([], Some (fmt_Errorf_w "failed fetching host table: " err))
  | inr body =>
  match json_Unmarshal_hostTblResp body with
  | inl err => ret ([], Some (fmt_Errorf_w "failed parsing host table JSON: " err))
  | inr r =>
  if negb (String.eqb (hostTblResp_Error r) "ok") then
    ret ([], Some (fmt_Errorf_s "host table returned error: " (hostTblResp_Error r)))
  else
    let out := fold_left (fun out e => (out ++ [deviceOf e])%list) (HostTbl (Data r)) [] in
    ret (out, None)
  end
  end.

(** logout ends the current session on the router; its result is dropped. *)
Definition logout (h : HomeStationClient) : M unit :=
  let* _ := doPostForm h (logoutURL h) ∅ in ret tt.

(** ListConnected logs in, returns connected devices, and logs out. *)
Definition ListConnected (h : HomeStationClient) : M (list Device * option error) :=
  let* e := tryLogin h in
  match e with
  | Some err => ret ([], Some err)
  | None =>
      let* r := fetchHostTbl h in
      let* _ := logout h in
      ret r
  end.

End Client.

(* ===================================================================== *)
(** ** The constructor of the client *)
(* ===================================================================== *)

(** [strings.TrimRight(s, cutset)] for a cutset of one ASCII byte [c]: the
    bytes equal to [c] at the end of [s] are removed. *)
Fixpoint trimRightByte (s : string) (c : ascii) : string :=
  match s with
  | EmptyString => EmptyString
  | String a rest =>
      match trimRightByte rest c with
      | EmptyString => if Ascii.eqb a c then EmptyString else String a EmptyString
      | r => String a r
      end
  end.

(** [strings.Repeat(s, count)] for a count that is not negative. *)
Fixpoint strings_Repeat (s : string) (count : nat) : string :=
  match count with
  | O => EmptyString
  | S n => s ++ strings_Repeat s n
  end.

(** NewHomeStationClient: the base URL loses its trailing slashes; the
    cookie jar and the [http.Client] it builds are the world a run starts
    in; the error it returns is always nil. *)
Definition NewHomeStationClient (baseURL user pass : string)
  : HomeStationClient * option error :=
  (mkClient (trimRightByte baseURL "/") user pass, None).

(** [errors.Unwrap]. *)
Definition errors_Unwrap (e : error) : option error :=
  match e with
  | errorString _ => None
  | wrapError _ err => Some err
  end.

(* ===================================================================== *)
(** ** The table printer (package cli) *)
(* ===================================================================== *)

Definition newline : string := String "010"%char EmptyString.

(** [%d] of a number that is not negative. *)
Definition decimal (n : nat) : string := DecimalString.NilEmpty.string_of_uint (Nat.to_uint n).

Definition padRight (s : string) (width : nat) : string :=
  if (width <=? String.length s)%nat then s
  else s ++ strings_Repeat " " (width - String.length s).

(** What [reflect] tells of a type: a struct with its fields, a pointer,
    or any other kind.  [PkgPath] is empty for an exported field. *)
Record StructField := mkStructField { Name : string; PkgPath : string }.

Inductive rtype : Type :=
| rStruct (fields : list StructField)
| rPtr (elem : rtype)
| rOther.

Section Table.

(** The values of struct fields, and [fmt.Sprint] on them. *)
Variable V : Type.
Variable fmt_Sprint : V -> string.

(** An element of the slice, as [reflect] shows it: a struct, with
    [Field(i)], or a pointer, nil or to a struct. *)
Inductive Elem : Type :=
| elemStruct (Field : nat -> V)
| elemPtr (target : option (nat -> V)).

(** The argument [items]: a value that is no slice, or a slice with its
    element type and its elements. *)
Inductive Items : Type :=
| notSlice
| sliceOf (elemType : rtype) (elems : list Elem).

(** [for i := 0; i < elemType.NumField(); i++]: the indices of the
    exported fields, from index [i] on. *)
Fixpoint exportedFrom (i : nat) (fields : list StructField) : list nat :=
  match fields with
  | [] => []
  | f :: rest =>
      if String.eqb (PkgPath f) "" then i :: exportedFrom (S i) rest
      else exportedFrom (S i) rest
  end.

(** [for i, h := range headers { colWidths[i] = len(h) }], from [i] on. *)
Fixpoint headerWidths (i : nat) (headers : list string) (colWidths : list nat)
  : list nat :=
  match headers with
  | [] => colWidths
  | h :: rest => headerWidths (S i) rest (<[i := String.length h]> colWidths)
  end.

(** [for j, fieldIdx := range fieldIndices { ... }]: the row is filled
    and the widths are raised, from column [j] on.  No field here is
    reached through an unexported one, so [CanInterface] holds. *)
Fixpoint fillRow (Field : nat -> V) (j : nat) (fieldIndices : list nat)
    (row : list string) (colWidths : list nat) : list string * list nat :=
  match fieldIndices with
  | [] => (row, colWidths)
  | fieldIdx :: rest =>
      let s := fmt_Sprint (Field fieldIdx) in
      let row := <[j := s]> row in
      let colWidths :=
        if (nth j colWidths 0 <? String.length s)%nat
        then <[j := String.length s]> colWidths
        else colWidths in
      fillRow Field (S j) rest row colWidths
  end.

(** One round of [for i := 0; i < v.Len(); i++]. *)
Definition gatherRow (fieldIndices : list nat) (colCount : nat)
    (acc : list (list string) * list nat) (ev : Elem)
  : list (list string) * list nat :=
  let '(rows, colWidths) := acc in
  let filled (Field : nat -> V) :=
    let '(row, colWidths) :=
      fillRow Field 0 fieldIndices (repeat "" colCount) colWidths in
    ((rows ++ [row])%list, colWidths) in
  match ev with
  | elemPtr None => ((rows ++ [repeat "" colCount])%list, colWidths)
  | elemPtr (Some Field) => filled Field
  | elemStruct Field => filled Field
  end.

(** [for i := 0; i < colCount; i++]: the width of a line. *)
Definition sumWidths (colCount : nat) (colWidths : list nat) : nat :=
  fold_left
    (fun totalWidth i =>
       ((if (0 <? i)%nat then totalWidth + 3 else totalWidth) + nth i colWidths 0)%nat)
    (seq 0 colCount) 0%nat.

(** [for i, col := range row { ... }]: the cells of one line, padded and
    separated, from column [i] on. *)
Fixpoint printCells (i : nat) (row : list string) (colWidths : list nat) : string :=
  match row with
  | [] => ""
  | col :: rest =>
      (if (0 <? i)%nat then " | " else "")
      ++ padRight col (nth i colWidths 0%nat)
      ++ printCells (S i) rest colWidths
  end.

(** PrintStructTable prints a table for a slice of structs (or pointers
    to structs).  The result is the text written to [w] and the error;
    [headers] is [None] for a nil slice. *)
Definition PrintStructTable (items : Items) (headers : option (list string))
  : string * option error :=
  match items with
  | notSlice => ("", Some (errorString "items must be a slice"))
  | sliceOf elemType elems =>
      let elemType := match elemType with rPtr t => t | t => t end in
      match elemType with
      | rStruct fields =>
          let fieldIndices := exportedFrom 0 fields in
          if (List.length fieldIndices =? 0)%nat then
            ("", Some (errorString "no exported fields found in struct"))
          else
          let colCount := List.length fieldIndices in
          let mismatch :=
            match headers with
            | Some hs => negb (List.length hs =? colCount)%nat
            | None => false
            end in
          if mismatch then
            ("", Some (errorString
                         ("headers length ("
                          ++ decimal (List.length (default [] headers))
                          ++ ") must match number of exported fields ("
                          ++ decimal colCount ++ ")")))
          else
          let colWidths := headerWidths 0 (default [] headers) (repeat 0%nat colCount) in
          let '(rows, colWidths) :=
            fold_left (gatherRow fieldIndices colCount) elems ([], colWidths) in
          let totalWidth := sumWidths colCount colWidths in
          let out :=
            match headers with
            | Some hs =>
                printCells 0 hs colWidths ++ newline
                ++ strings_Repeat "-" totalWidth ++ newline
            | None => ""
            end in
          let out :=
            fold_left (fun out row => out ++ printCells 0 row colWidths ++ newline)
              rows out in
          (out, None)
      | _ => ("", Some (errorString "slice elements must be structs or pointers to structs"))
      end
  end.

End Table.

Arguments fillRow {V} fmt_Sprint Field j fieldIndices row colWidths.
Arguments gatherRow {V} fmt_Sprint fieldIndices colCount acc ev.
Arguments PrintStructTable {V} fmt_Sprint items headers.
Arguments elemStruct {V} Field.
Arguments elemPtr {V} target.
Arguments notSlice {V}.
Arguments sliceOf {V} elemType elems.

(** The field values of the structs the package prints, and [fmt.Sprint]
    on them. *)
Inductive fieldValue : Type :=
| vString (s : string)
| vBool (b : bool).

Definition fmt_Sprint (v : fieldValue) : string :=
  match v with
  | vString s => s
  | vBool true => "true"
  | vBool false => "false"
  end.

(* ===================================================================== *)
(** ** The commands (package cli) *)
(* ===================================================================== *)

(** RouterClient abstracts fetching connected devices. *)
Class RouterClient {rt : Runtime} (C : Type) := {
  RouterClient_ListConnected : C -> M (list Device * option error)
}.

#[global] Instance HomeStationClient_RouterClient {rt : Runtime}
  : RouterClient HomeStationClient :=
  {| RouterClient_ListConnected := ListConnected |}.

(** activeDevice is a display struct for active devices (without Active
    field). *)
Record activeDevice := mkActiveDevice {
  activeDevice_MAC : string;
  activeDevice_IP : string;
  activeDevice_Hostname : string
}.

(** What [reflect] shows of a [[]Device] and of a [[]activeDevice]: all
    fields are exported. *)
Definition Device_type : rtype :=
  rStruct [ mkStructField "MAC" ""; mkStructField "IP" "";
            mkStructField "Hostname" ""; mkStructField "Active" "" ].

Definition Device_Field (d : Device) (i : nat) : fieldValue :=
  match i with
  | 0 => vString (MAC d)
  | 1 => vString (IP d)
  | 2 => vString (Hostname d)
  | _ => vBool (Active d)
  end%nat.

Definition reflect_Devices (devs : list Device) : Items fieldValue :=
  sliceOf Device_type (List.map (fun d => elemStruct (Device_Field d)) devs).

Definition activeDevice_type : rtype :=
  rStruct [ mkStructField "MAC" ""; mkStructField "IP" "";
            mkStructField "Hostname" "" ].

Definition activeDevice_Field (d : activeDevice) (i : nat) : fieldValue :=
  match i with
  | 0 => vString (activeDevice_MAC d)
  | 1 => vString (activeDevice_IP d)
  | _ => vString (activeDevice_Hostname d)
  end%nat.

Definition reflect_activeDevices (active : list activeDevice) : Items fieldValue :=
  sliceOf activeDevice_type
    (List.map (fun d => elemStruct (activeDevice_Field d)) active).

(** [for _, d := range devs { if d.Active { active = append(...) } }]. *)
Definition collectActive (devs : list Device) : list activeDevice :=
  fold_left
    (fun active d =>
       if Active d
       then (active ++ [mkActiveDevice (MAC d) (IP d) (Hostname d)])%list
       else active)
    devs [].

(** The loop of [CheckByMatcher]: it returns at the first device that is
    active and matches. *)
Fixpoint matchLoop (devs : list Device) (matcher : string) : bool :=
  match devs with
  | [] => false
  | d :: rest =>
      if Active d
         && (MatchMAC (MAC d) matcher
             || String.eqb (Hostname d) matcher
             || String.eqb (IP d) matcher)
      then true
      else matchLoop rest matcher
  end.

Section Commands.

Context {rt : Runtime} {C : Type} {rc : RouterClient C}.

Notation "'let*' x ':=' c1 'in' c2" := (bind c1 (fun x => c2))
  (at level 10, x name, c1 at level 100, c2 at level 200).

(** ListDevices prints devices from the provided RouterClient.  The
    result is the text written to [os.Stdout] and the error. *)
Definition ListDevices (c : C) : M (string * option error) :=
  let* r := RouterClient_ListConnected c in
  match r.2 with
  | Some err => ret ("", Some err)
  | None =>
      ret (PrintStructTable fmt_Sprint (reflect_Devices r.1)
             (Some ["MAC"; "IP"; "Hostname"; "Active"]))
  end.

(** ListActive prints only devices marked as active by the router. *)
Definition ListActive (c : C) : M (string * option error) :=
  let* r := RouterClient_ListConnected c in
  match r.2 with
  | Some err => ret ("", Some err)
  | None =>
      let active := collectActive r.1 in
      ret (PrintStructTable fmt_Sprint (reflect_activeDevices active)
             (Some ["MAC"; "IP"; "Hostname"]))
  end.

Definition CheckByMatcher (c : C) (matcher : string) : M (bool * option error) :=
  let* r := RouterClient_ListConnected c in
  match r.2 with
  | Some err => ret (false, Some err)
  | None => ret (matchLoop r.1 matcher, None)
  end.

End Commands.

(* ===================================================================== *)
(** ** The vocabulary of the properties *)
(* ===================================================================== *)

(** The four separators, and the ASCII letters. *)
Definition isSeparator (c : ascii) : bool :=
  (Ascii.eqb c ":" || Ascii.eqb c "-" || Ascii.eqb c "." || Ascii.eqb c " ")%char%bool.

Definition isUpper (c : ascii) : bool :=
  ((byte_of "A"%char <=? byte_of c)%Z && (byte_of c <=? byte_of "Z"%char)%Z)%bool.

Definition isLower (c : ascii) : bool :=
  ((byte_of "a"%char <=? byte_of c)%Z && (byte_of c <=? byte_of "z"%char)%Z)%bool.

(** ASCII case conversion of one byte, and of a string ([strings.ToUpper]
    and [strings.ToLower] on ASCII text). *)
Definition upperByte (c : ascii) : ascii :=
  if isLower c then ascii_of_byte (byte_of c - byte_of "a"%char + byte_of "A"%char)%Z else c.
Definition lowerByte (c : ascii) : ascii :=
  if isUpper c then ascii_of_byte (byte_of c - byte_of "A"%char + byte_of "a"%char)%Z else c.

Fixpoint mapBytes (f : ascii -> ascii) (s : string) : string :=
  match s with
  | EmptyString => EmptyString
  | String c rest => String (f c) (mapBytes f rest)
  end.

(** The characters [0-9a-f]. *)
Definition isLowerHex (c : ascii) : bool :=
  existsb (Ascii.eqb c) (list_ascii_of_string hextable).

(** The value of a hex digit, and the bytes a hex text stands for. *)
Definition hexval (c : ascii) : option Z :=
  let n := Z.of_N (N_of_ascii c) in
  if ((48 <=? n) && (n <=? 57))%Z%bool then Some (n - 48)%Z
  else if ((97 <=? n) && (n <=? 102))%Z%bool then Some (n - 87)%Z
  else None.

Fixpoint hex_Decode (s : string) : option (list Z) :=
  match s with
  | EmptyString => Some []
  | String hi (String lo rest) =>
      match hexval hi, hexval lo, hex_Decode rest with
      | Some h, Some l, Some bs => Some ((16 * h + l)%Z :: bs)
      | _, _, _ => None
      end
  | String _ EmptyString => None
  end.

Definition isByte (b : Z) : Prop := (0 <= b < 256)%Z.

(** [substr] occurs in [s]. *)
Definition Substring (substr s : string) : Prop :=
  exists pre post, s = pre ++ substr ++ post.

(** [requestTo u ev]: the call [ev] is a request to the URL [u]. *)
Definition requestTo (u : string) (ev : Event) : bool :=
  match ev with
  | EvPostForm u' _ => String.eqb u' u
  | EvGet u' => String.eqb u' u
  | EvHash _ _ => false
  end.

(** [isHash ev]: the call [ev] is a call of the hasher. *)
Definition isHash (ev : Event) : bool :=
  match ev with
  | EvHash _ _ => true
  | _ => false
  end.

Section Vocabulary.

Context {rt : Runtime}.

(** Every call logged by [m] satisfies [P]. *)
Definition logs {A : Type} (P : Event -> Prop) (m : M A) : Prop :=
  forall w, Forall P (m w).2.

(** The calls of a login: POSTs to the login endpoint, the two hashes, and
    the GET that activates the session. *)
Definition loginEvent (h : HomeStationClient) (ev : Event) : Prop :=
  match ev with
  | EvPostForm u _ => u = loginURL h
  | EvGet u => u = menuURL h
  | EvHash _ _ => True
  end.

End Vocabulary.

(** *** Runs, canonical forms, tables and listings *)

(** [isRequest ev]: the call [ev] is an HTTP request. *)
Definition isRequest (ev : Event) : bool :=
  match ev with
  | EvPostForm _ _ | EvGet _ => true
  | EvHash _ _ => false
  end.

Section RunVocabulary.

Context {rt : Runtime}.

(** What the login makes of the result [r2] of the credential-submit
    request, from the world [w2] on. *)
Inductive ReplyRun (h : HomeStationClient) (w2 : World)
  : error + string -> option error -> World -> list Event -> Prop :=
| reply_error err :
    ReplyRun h w2 (inl err)
      (Some (fmt_Errorf_w "failed posting hashed password: " err)) w2 []
| reply_unparsed resp2body err :
    json_Unmarshal_map resp2body = inl err ->
    ReplyRun h w2 (inr resp2body)
      (Some (errors_New "login failed with provided credentials")) w2 []
| reply_ok resp2body jr rm w3 t3 :
    json_Unmarshal_map resp2body = inr jr ->
    jr !! "error" = Some (anyString "ok") ->
    doGet h (menuURL h) w2 = (rm, w3, t3) ->
    ReplyRun h w2 (inr resp2body) None w3 [EvGet (menuURL h)]
| reply_blocked resp2body jr msg :
    json_Unmarshal_map resp2body = inr jr ->
    jr !! "error" <> Some (anyString "ok") ->
    jr !! "message" = Some (anyString msg) ->
    strings_Contains msg "MSG_LOGIN_150" = true ->
    ReplyRun h w2 (inr resp2body)
      (Some (fmt_Errorf_s "An active session exists. Logout first. " msg)) w2 []
| reply_rejected resp2body jr :
    json_Unmarshal_map resp2body = inr jr ->
    jr !! "error" <> Some (anyString "ok") ->
    (forall msg, jr !! "message" = Some (anyString msg) ->
                 strings_Contains msg "MSG_LOGIN_150" = false) ->
    ReplyRun h w2 (inr resp2body)
      (Some (errors_New "login failed with provided credentials")) w2 [].

(** The runs of a login, path by path: what it returns, the world it
    leaves and the calls it made. *)
Inductive LoginRun (h : HomeStationClient) (w : World)
  : option error -> World -> list Event -> Prop :=
| run_challenge_error err w1 t1 :
    doPostForm h (loginURL h) (loginForm h "seeksalthash") w = (inl err, w1, t1) ->
    LoginRun h w (Some (fmt_Errorf_w "failed requesting salt: " err)) w1
      [EvPostForm (loginURL h) (loginForm h "seeksalthash")]
| run_salt_unparsed body err w1 t1 :
    doPostForm h (loginURL h) (loginForm h "seeksalthash") w = (inr body, w1, t1) ->
    json_Unmarshal_saltResp body = inl err ->
    LoginRun h w (Some (fmt_Errorf_w "failed parsing salt response: " err)) w1
      [EvPostForm (loginURL h) (loginForm h "seeksalthash")]
| run_missing_salt body sr w1 t1 err :
    doPostForm h (loginURL h) (loginForm h "seeksalthash") w = (inr body, w1, t1) ->
    json_Unmarshal_saltResp body = inr sr ->
    (Salt sr = "" /\ err = errors_New "no salt returned from router") \/
    (Salt sr <> "" /\ SaltWebUI sr = "" /\
     err = errors_New "no saltwebui returned from router") ->
    LoginRun h w (Some err) w1
      [EvPostForm (loginURL h) (loginForm h "seeksalthash")]
| run_submitted body sr w1 t1 r2 w2 t2 outcome w3 t3 :
    doPostForm h (loginURL h) (loginForm h "seeksalthash") w = (inr body, w1, t1) ->
    json_Unmarshal_saltResp body = inr sr ->
    Salt sr <> "" -> SaltWebUI sr <> "" ->
    doPostForm h (loginURL h)
      (loginForm h (pbkdf2Hex (pbkdf2Hex (pass h) (Salt sr)) (SaltWebUI sr))) w1
    = (r2, w2, t2) ->
    ReplyRun h w2 r2 outcome w3 t3 ->
    LoginRun h w outcome w3
      ([ EvPostForm (loginURL h) (loginForm h "seeksalthash");
         EvHash (pass h) (Salt sr);
         EvHash (pbkdf2Hex (pass h) (Salt sr)) (SaltWebUI sr);
         EvPostForm (loginURL h)
           (loginForm h (pbkdf2Hex (pbkdf2Hex (pass h) (Salt sr)) (SaltWebUI sr))) ]
       ++ t3).

End RunVocabulary.

(** Bytes of a string: all satisfy [p]; how many satisfy [p]. *)
Fixpoint allBytes (p : ascii -> bool) (s : string) : bool :=
  match s with
  | EmptyString => true
  | String c rest => p c && allBytes p rest
  end.

Fixpoint countBytes (p : ascii -> bool) (s : string) : nat :=
  match s with
  | EmptyString => O
  | String c rest => (if p c then 1 else 0) + countBytes p rest
  end.

(** A byte in canonical form: no separator, no upper-case ASCII letter. *)
Definition isCanonical (c : ascii) : bool := negb (isSeparator c) && negb (isUpper c).

(** [strings.Join]. *)
Fixpoint strings_Join (elems : list string) (sep : string) : string :=
  match elems with
  | [] => ""
  | [s] => s
  | s :: rest => s ++ sep ++ strings_Join rest sep
  end.

Definition concatStrings (l : list string) : string :=
  fold_right String.append "" l.

Section TableVocabulary.

Variable V : Type.
Variable fmt_Sprint : V -> string.

(** The cells of the row an element gives: the printed exported fields,
    or empty cells for a nil pointer. *)
Definition cellsOf (fieldIndices : list nat) (ev : Elem V) : list string :=
  match ev with
  | elemPtr None => repeat "" (List.length fieldIndices)
  | elemPtr (Some Field) | elemStruct Field =>
      List.map (fun fieldIdx => fmt_Sprint (Field fieldIdx)) fieldIndices
  end.

(** The fields of the element type, behind at most one pointer. *)
Definition structFields (items : Items V) : option (list StructField) :=
  match items with
  | sliceOf (rStruct fields) _ | sliceOf (rPtr (rStruct fields)) _ => Some fields
  | _ => None
  end.

Definition elemsOf (items : Items V) : list (Elem V) :=
  match items with
  | sliceOf _ elems => elems
  | notSlice => []
  end.

(** The table of a call: the header row, if any, and the rows of the
    elements. *)
Definition tableOf (fieldIndices : list nat) (items : Items V)
    (headers : option (list string)) : list (list string) :=
  (match headers with Some hs => [hs] | None => [] end
   ++ List.map (cellsOf fieldIndices) (elemsOf items))%list.

End TableVocabulary.

Arguments cellsOf {V} fmt_Sprint fieldIndices ev.
Arguments structFields {V} items.
Arguments elemsOf {V} items.
Arguments tableOf {V} fmt_Sprint fieldIndices items headers.

(** Raising the widths of the columns by a row. *)
Definition raise (colWidths : list nat) (row : list string) : list nat :=
  zip_with Nat.max colWidths (List.map String.length row).

(** The longest entry of column [j] of a table. *)
Definition columnWidth (table : list (list string)) (j : nat) : nat :=
  list_max (List.map (fun row => String.length (nth j row "")) table).

(** A line of the table: each cell padded to the width of its column. *)
Definition tableLine (widths : list nat) (row : list string) : string :=
  strings_Join (zip_with padRight row widths) " | ".

(** The cells of the row of a device in the two listings. *)
Definition deviceRow (d : Device) : list string :=
  [MAC d; IP d; Hostname d; if Active d then "true" else "false"].

Definition activeRow (d : Device) : list string :=
  [MAC d; IP d; Hostname d].

(** The listing of a table with a header: the header line, the dashes,
    and the lines of the rows, each column as wide as its longest
    entry. *)
Definition listing (header : list string) (rows : list (list string)) : string :=
  let widths :=
    List.map (columnWidth (header :: rows)) (seq 0 (List.length header)) in
  tableLine widths header ++ newline
  ++ strings_Repeat "-" (list_sum widths + 3 * (List.length header - 1)) ++ newline
  ++ concatStrings (List.map (fun row => tableLine widths row ++ newline) rows).

(** A device that [matcher] names: by its MAC address up to case and
    separators, or by its host name or IP address exactly. *)
Definition named (matcher : string) (d : Device) : Prop :=
  normalizeMAC (MAC d) = normalizeMAC matcher \/
  Hostname d = matcher \/ IP d = matcher.

(* ===================================================================== *)
(** ** A scripted runtime

    A test double used by the examples: the world is the list of the
    responses still to be played, one per request; bodies are short tokens
    which the three decoders look up. *)
(* ===================================================================== *)

Module Scripted.

Definition play (req : Request) (script : list (error + string))
  : (error + string) * list (error + string) :=
  match script with
  | [] => (inl (errorString "EOF"), [])
  | r :: rest => (r, rest)
  end.

Definition decode_salt (body : string) : error + saltResp :=
  if String.eqb body "salt abc xyz" then inr (mkSaltResp "ok" "abc" "xyz")
  else if String.eqb body "salt abc xyz, error fail" then inr (mkSaltResp "fail" "abc" "xyz")
  else if String.eqb body "salt - xyz" then inr (mkSaltResp "ok" "" "xyz")
  else if String.eqb body "salt abc -" then inr (mkSaltResp "ok" "abc" "")
  else inl (errorString "invalid character").

Definition decode_map (body : string) : error + gmap string any :=
  if String.eqb body "error ok" then inr {[ "error" := anyString "ok" ]}
  else if String.eqb body "error fail, message MSG_LOGIN_150 please logout" then
    inr (<["message" := anyString "MSG_LOGIN_150 please logout"]>
           {[ "error" := anyString "fail" ]})
  else if String.eqb body "error fail, message bad credentials" then
    inr (<["message" := anyString "bad credentials"]>
           {[ "error" := anyString "fail" ]})
  else if String.eqb body "null" then inr ∅
  else inl (errorString "invalid character").

Definition phone : hostEntry :=
  mkHostEntry "AA:BB:CC:DD:EE:FF" "192.168.0.5" "phone" "true".
Definition laptop : hostEntry :=
  mkHostEntry "11-22-33-44-55-66" "192.168.0.6" "laptop" "maybe".

Definition decode_hosts (body : string) : error + hostTblResp :=
  if String.eqb body "hosts phone laptop" then
    inr (mkHostTblResp "ok" "" (mkHostTblData [phone; laptop]) "t0")
  else if String.eqb body "hosts" then
    inr (mkHostTblResp "ok" "" (mkHostTblData []) "t0")
  else if String.eqb body "hosts, error busy" then
    inr (mkHostTblResp "busy" "" (mkHostTblData []) "")
  else inl (errorString "invalid character").

#[local] Instance runtime : Runtime := {|
  World := list (error + string);
  url_Parse_error := fun _ => None;
  Values_Encode := fun _ => "";
  client_Do := play;
  json_Unmarshal_saltResp := decode_salt;
  json_Unmarshal_map := decode_map;
  json_Unmarshal_hostTblResp := decode_hosts
|}.

Definition client : HomeStationClient := mkClient "http://192.168.0.1" "admin" "secret".

Definition timeout : error := errorString "i/o timeout".

(** The calls of a login of [client] whose salt pair is abc, xyz. *)
Definition hash1 : string := pbkdf2Hex "secret" "abc".
Definition finalHash : string := pbkdf2Hex hash1 "xyz".
Definition challenge : Event :=
  EvPostForm (loginURL client) (loginForm client "seeksalthash").
Definition submit : Event :=
  EvPostForm (loginURL client) (loginForm client finalHash).
Definition upToSubmit : list Event :=
  [challenge; EvHash "secret" "abc"; EvHash hash1 "xyz"; submit].

(** A session: the login succeeds although the activation request fails,
    the host table has two records, and the logout request fails. *)
Definition session : list (error + string) :=
  [ inr "salt abc xyz"; inr "error ok"; inl timeout;
    inr "hosts phone laptop"; inl timeout ].

(** A session in which the host table reports an error. *)
Definition busySession : list (error + string) :=
  [ inr "salt abc xyz"; inr "error ok"; inr "menu";
    inr "hosts, error busy"; inr "bye" ].

Definition devices : list Device :=
  [ mkDevice "AA:BB:CC:DD:EE:FF" "192.168.0.5" "phone" true;
    mkDevice "11-22-33-44-55-66" "192.168.0.6" "laptop" false ].

End Scripted.

(* ===================================================================== *)
(** ** A scripted runtime that refuses a URL

    Like the scripted runtime, but [url.Parse] refuses a URL with a space
    in it. *)
(* ===================================================================== *)

Module Strict.

Definition parse (u : string) : option error :=
  if strings_Contains u " "
  then Some (errorString "invalid character in host name")
  else None.

#[local] Instance runtime : Runtime := {|
  World := list (error + string);
  url_Parse_error := parse;
  Values_Encode := fun _ => "";
  client_Do := Scripted.play;
  json_Unmarshal_saltResp := Scripted.decode_salt;
  json_Unmarshal_map := Scripted.decode_map;
  json_Unmarshal_hostTblResp := Scripted.decode_hosts
|}.

Definition client : HomeStationClient := mkClient "http://my router" "admin" "secret".

End Strict.

(** The slice of the tests of the table printer. *)
Module TableTests.

(** The struct of the package's tests: Name, IP, Active. *)
Definition deviceType : rtype :=
  rStruct [mkStructField "Name" ""; mkStructField "IP" ""; mkStructField "Active" ""].

Definition device (name ip : string) (active : bool) : nat -> fieldValue :=
  fun i => match i with
           | 0 => vString name
           | 1 => vString ip
           | _ => vBool active
           end%nat.

Definition two : Items fieldValue :=
  sliceOf deviceType
    [ elemStruct (device "Phone" "192.168.1.10" true);
      elemStruct (device "Laptop" "192.168.1.20" false) ].

End TableTests.

(* ===================================================================== *)
(** * Properties *)
(* ===================================================================== *)

(** ** The hash primitives against published test vectors *)

Example sha256_constants :
  List.length SHA256.K = 64%nat /\
  List.map Uint63.to_Z (firstn 2 SHA256.K) = [0x428a2f98; 0x71374491]%Z /\
  Uint63.to_Z (nth 63 SHA256.K SHA256.zero) = 0xc67178f2%Z /\
  Uint63.to_Z (SHA256.ra SHA256.init) = 0x6a09e667%Z /\
  Uint63.to_Z (SHA256.rh SHA256.init) = 0x5be0cd19%Z.
Proof. vm_compute. repeat split. Qed.

Example sha256_abc :
  hex_EncodeToString (SHA256.Sum256 (bytes_of_string "abc"))
  = "ba7816bf8f01cfea414140de5dae2223b00361a396177a9cb410ff61f20015ad"%string.
Proof. vm_compute. reflexivity. Qed.

Example hmac_rfc4231_1 :
  hex_EncodeToString (HMAC.Sum (repeat 0x0b 20) (bytes_of_string "Hi There"))
  = "b0344c61d8db38535ca8afceaf0bf12b881dc200c9833da726e9376c2e32cff7"%string.
Proof. vm_compute. reflexivity. Qed.

Example hmac_long_key :
  hex_EncodeToString (HMAC.Sum (repeat 0x6b 70) (bytes_of_string "Hi There"))
  = "cd96ea48ec394184918e9bb9454c63faa0a54fdaca649daa86c8d2077983a67d"%string.
Proof. vm_compute. reflexivity. Qed.

Example pbkdf2_two_blocks :
  hex_EncodeToString
    (PBKDF2.Key (bytes_of_string "password") (bytes_of_string "salt") 2 40)
  = "ae4d0c95af6b46d32d0adff928f06dd02a303f8ef3c251dfd6e2d85a95474c43830651afcb5c862f"%string.
Proof. vm_compute. reflexivity. Qed.

Example pbkdf2Hex_password_salt :
  pbkdf2Hex "password" "salt" = "632c2812e46d4604102ba7618e9d6d7d"%string.
Proof. vm_compute. reflexivity. Qed.


(** ** The MAC canonicaliser *)

Example normalizeMAC_colon : normalizeMAC "AA:BB:CC:DD:EE:FF" = "aabbccddeeff".
Proof. reflexivity. Qed.

Example normalizeMAC_mixed : normalizeMAC " a0-B1.c2:Zz" = "a0b1c2zz".
Proof. reflexivity. Qed.

Lemma normalizeMAC_cons (c : ascii) (rest : string) :
  normalizeMAC (String c rest)
  = if isSeparator c then normalizeMAC rest
    else String (lowerByte c) (normalizeMAC rest).
Proof. reflexivity. Qed.

Lemma byte_of_range (c : ascii) : (0 <= byte_of c < 256)%Z.
Proof.
  unfold byte_of. pose proof (N_ascii_bounded c). lia.
Qed.

Lemma ascii_of_byte_of (c : ascii) : ascii_of_byte (byte_of c) = c.
Proof.
  unfold ascii_of_byte. pose proof (byte_of_range c).
  rewrite Z.mod_small by lia. unfold byte_of.
  rewrite N2Z.id. apply ascii_N_embedding.
Qed.

Lemma byte_of_ascii_of_byte (b : Z) :
  (0 <= b < 256)%Z -> byte_of (ascii_of_byte b) = b.
Proof.
  intros Hb. unfold ascii_of_byte, byte_of.
  rewrite Z.mod_small by lia.
  rewrite N_ascii_embedding by lia. lia.
Qed.

Lemma byte_of_inj (c d : ascii) : byte_of c = byte_of d -> c = d.
Proof.
  intros H. rewrite <- (ascii_of_byte_of c), <- (ascii_of_byte_of d). now rewrite H.
Qed.

Lemma eqb_ascii_of_byte_ne (b : Z) (d : ascii) :
  (0 <= b < 256)%Z -> b <> byte_of d -> Ascii.eqb (ascii_of_byte b) d = false.
Proof.
  intros Hb Hne. destruct (Ascii.eqb_spec (ascii_of_byte b) d) as [E|]; [|reflexivity].
  exfalso. apply Hne. rewrite <- E. symmetry. now apply byte_of_ascii_of_byte.
Qed.

(** A lowered byte is no separator and no upper-case letter. *)
Lemma lowerByte_fixed (c : ascii) :
  isSeparator c = false ->
  isSeparator (lowerByte c) = false /\ lowerByte (lowerByte c) = lowerByte c.
Proof.
  intros Hsep. unfold lowerByte. destruct (isUpper c) eqn:Hup.
  - unfold isUpper in Hup. apply andb_prop in Hup as [H1 H2].
    apply Z.leb_le in H1, H2.
    change (byte_of "A"%char) with 65%Z in *. change (byte_of "Z"%char) with 90%Z in *.
    change (byte_of "a"%char) with 97%Z.
    set (b := (byte_of c - 65 + 97)%Z).
    assert (Hb : (97 <= b <= 122)%Z) by (unfold b; lia).
    assert (Hbb : byte_of (ascii_of_byte b) = b) by (apply byte_of_ascii_of_byte; lia).
    split.
    + clearbody b. unfold isSeparator.
      rewrite !eqb_ascii_of_byte_ne; try reflexivity; try lia;
        match goal with |- _ <> byte_of ?d => change (byte_of d) with
          ltac:(let v := eval vm_compute in (byte_of d) in exact v); lia end.
    + unfold isUpper. rewrite Hbb.
      change (byte_of "A"%char) with 65%Z. change (byte_of "Z"%char) with 90%Z.
      replace (b <=? 90)%Z with false by (symmetry; apply Z.leb_gt; lia).
      now rewrite andb_false_r.
  - split; [assumption|]. now rewrite Hup.
Qed.

Lemma normalizeMAC_idempotent (x : string) :
  normalizeMAC (normalizeMAC x) = normalizeMAC x.
Proof.
  induction x as [|c rest IH].
  - reflexivity.
  - rewrite normalizeMAC_cons. destruct (isSeparator c) eqn:Hsep.
    + exact IH.
    + destruct (lowerByte_fixed c Hsep) as [Hs Hl].
      rewrite normalizeMAC_cons, Hs, Hl, IH. reflexivity.
Qed.

Lemma normalizeMAC_app (x y : string) :
  normalizeMAC (x ++ y) = normalizeMAC x ++ normalizeMAC y.
Proof.
  induction x as [|c rest IH]; [reflexivity|].
  change (String c rest ++ y) with (String c (rest ++ y)).
  rewrite !normalizeMAC_cons, IH. now destruct (isSeparator c).
Qed.

(** Facts about single bytes, checked on each of the 256 values. *)
Ltac by_cases_on_byte c :=
  destruct c as [[] [] [] [] [] [] [] []]; reflexivity.

Lemma isSeparator_lowerByte (c : ascii) : isSeparator (lowerByte c) = isSeparator c.
Proof. by_cases_on_byte c. Qed.

Lemma isSeparator_upperByte (c : ascii) : isSeparator (upperByte c) = isSeparator c.
Proof. by_cases_on_byte c. Qed.

Lemma lowerByte_lowerByte (c : ascii) : lowerByte (lowerByte c) = lowerByte c.
Proof. by_cases_on_byte c. Qed.

Lemma lowerByte_upperByte (c : ascii) : lowerByte (upperByte c) = lowerByte c.
Proof. by_cases_on_byte c. Qed.

Lemma normalizeMAC_mapBytes (f : ascii -> ascii) (a : string) :
  (forall c, isSeparator (f c) = isSeparator c) ->
  (forall c, lowerByte (f c) = lowerByte c) ->
  normalizeMAC (mapBytes f a) = normalizeMAC a.
Proof.
  intros Hsep Hlow. induction a as [|c rest IH]; [reflexivity|].
  cbn [mapBytes]. rewrite !normalizeMAC_cons, Hsep, Hlow, IH. reflexivity.
Qed.

Lemma normalizeMAC_separator (x y : string) (c : ascii) :
  In c [":"; "-"; "."; " "]%char ->
  normalizeMAC (x ++ String c y) = normalizeMAC (x ++ y).
Proof.
  intros Hc. rewrite !normalizeMAC_app, normalizeMAC_cons.
  replace (isSeparator c) with true; [reflexivity|].
  cbn in Hc. destruct Hc as [<-|[<-|[<-|[<-|[]]]]]; reflexivity.
Qed.

(** C8: normalize is idempotent; match(a, b) is normalize(a) == normalize(b),
    hence symmetric and reflexive; and match does not see the separators
    [:], [-], [.] and space, wherever they stand, nor the case of ASCII
    letters.  The two examples of the specification follow. *)
Theorem MatchMAC_normalize_properties :
  (forall x, normalizeMAC (normalizeMAC x) = normalizeMAC x) /\
  (forall a b, MatchMAC a b = String.eqb (normalizeMAC a) (normalizeMAC b)) /\
  (forall a b, MatchMAC a b = true <-> normalizeMAC a = normalizeMAC b) /\
  (forall a b, MatchMAC a b = MatchMAC b a) /\
  (forall a, MatchMAC a a = true) /\
  (forall x y c b, In c [":"; "-"; "."; " "]%char ->
     MatchMAC (x ++ String c y) b = MatchMAC (x ++ y) b) /\
  (forall a b, MatchMAC (mapBytes upperByte a) b = MatchMAC a b) /\
  (forall a b, MatchMAC (mapBytes lowerByte a) b = MatchMAC a b) /\
  MatchMAC "AA:BB:CC:DD:EE:FF" "aa-bb-cc-dd-ee-ff" = true /\
  MatchMAC "AABBCCDDEEFF" "aabbccddeeff" = true.
Proof.
  repeat split.
  - apply normalizeMAC_idempotent.
  - unfold MatchMAC. now intros ->%String.eqb_eq.
  - unfold MatchMAC. intros ->. apply String.eqb_refl.
  - intros a b. unfold MatchMAC. apply String.eqb_sym.
  - intros a. unfold MatchMAC. apply String.eqb_refl.
  - intros x y c b Hc. unfold MatchMAC. now rewrite normalizeMAC_separator.
  - intros a b. unfold MatchMAC.
    now rewrite (normalizeMAC_mapBytes upperByte a isSeparator_upperByte lowerByte_upperByte).
  - intros a b. unfold MatchMAC.
    now rewrite (normalizeMAC_mapBytes lowerByte a isSeparator_lowerByte lowerByte_lowerByte).
Qed.

(** ** The credential hasher *)


(** The definition of the hasher, as an equation between functions. *)
Lemma pbkdf2Hex_eq :
  pbkdf2Hex
  = fun password salt =>
      hex_EncodeToString
        (PBKDF2.Key (bytes_of_string password) (bytes_of_string salt) 1000 16).
Proof. reflexivity. Qed.

#[global] Opaque pbkdf2Hex.

Lemma Sum256_length (msg : list Z) : List.length (SHA256.Sum256 msg) = 32%nat.
Proof.
  unfold SHA256.Sum256. repeat rewrite List.length_app.
  unfold SHA256.word_bytes. reflexivity.
Qed.

Lemma HMAC_Sum_length (key msg : list Z) : List.length (HMAC.Sum key msg) = 32%nat.
Proof. unfold HMAC.Sum. apply Sum256_length. Qed.

Lemma xor_bytes_length (a b : list Z) :
  List.length (PBKDF2.xor_bytes a b) = Nat.min (List.length a) (List.length b).
Proof.
  unfold PBKDF2.xor_bytes. now rewrite List.length_map, List.length_combine.
Qed.

Lemma rounds_length (password : list Z) (n : nat) :
  forall U T, List.length T = 32%nat ->
  List.length (PBKDF2.rounds password n U T) = 32%nat.
Proof.
  induction n as [|n IH]; intros U T HT; cbn [PBKDF2.rounds].
  - exact HT.
  - apply IH. rewrite xor_bytes_length, HT, HMAC_Sum_length. reflexivity.
Qed.

Lemma block_length (password salt : list Z) (iter i : nat) :
  List.length (PBKDF2.block password salt iter i) = 32%nat.
Proof. unfold PBKDF2.block. apply rounds_length, HMAC_Sum_length. Qed.

Lemma flat_map_length_const {A B : Type} (f : A -> list B) (n : nat) (l : list A) :
  (forall x, List.length (f x) = n) ->
  List.length (flat_map f l) = (n * List.length l)%nat.
Proof.
  intros Hf. induction l as [|x l IH]; cbn [flat_map List.length].
  - lia.
  - rewrite List.length_app, Hf, IH. lia.
Qed.

(** The derived key has the length asked for. *)
Lemma Key_length (password salt : list Z) (iter keyLen : nat) :
  List.length (PBKDF2.Key password salt iter keyLen) = keyLen.
Proof.
  unfold PBKDF2.Key, SHA256.Size.
  rewrite List.length_firstn,
    (flat_map_length_const _ 32 _ (block_length password salt iter)),
    List.length_seq.
  pose proof (Nat.div_mod_eq (keyLen + 32 - 1) 32).
  pose proof (Nat.mod_upper_bound (keyLen + 32 - 1) 32).
  lia.
Qed.

Lemma hex_EncodeToString_length (bs : list Z) :
  String.length (hex_EncodeToString bs) = (2 * List.length bs)%nat.
Proof.
  induction bs as [|b bs IH]; cbn [hex_EncodeToString String.length List.length]; lia.
Qed.

Lemma hexdigit_lower (n : Z) : isLowerHex (hexdigit n) = true.
Proof.
  unfold hexdigit. generalize (Z.to_nat n) as k. intros k.
  do 16 (destruct k as [|k]; [reflexivity|]). reflexivity.
Qed.

Lemma hex_EncodeToString_lower (bs : list Z) :
  forallb isLowerHex (list_ascii_of_string (hex_EncodeToString bs)) = true.
Proof.
  induction bs as [|b bs IH]; [reflexivity|].
  cbn [hex_EncodeToString list_ascii_of_string forallb].
  now rewrite !hexdigit_lower, IH.
Qed.

Lemma pbkdf2Hex_unfold (password salt : string) :
  pbkdf2Hex password salt
  = hex_EncodeToString
      (PBKDF2.Key (bytes_of_string password) (bytes_of_string salt) 1000 16).
Proof. now rewrite pbkdf2Hex_eq. Qed.

Lemma pbkdf2Hex_length (password salt : string) :
  String.length (pbkdf2Hex password salt) = 32%nat.
Proof.
  rewrite pbkdf2Hex_unfold, hex_EncodeToString_length, Key_length. reflexivity.
Qed.

Lemma pbkdf2Hex_lower (password salt : string) :
  forallb isLowerHex (list_ascii_of_string (pbkdf2Hex password salt)) = true.
Proof. rewrite pbkdf2Hex_unfold. apply hex_EncodeToString_lower. Qed.

(** *** The hex text stands for the key *)

Lemma hexval_hexdigit (n : Z) : (0 <= n < 16)%Z -> hexval (hexdigit n) = Some n.
Proof.
  intros Hn.
  assert (H : exists k, (k < 16)%nat /\ n = Z.of_nat k).
  { exists (Z.to_nat n). split; lia. }
  destruct H as (k & Hk & ->).
  do 16 (destruct k as [|k]; [reflexivity|]). lia.
Qed.

Lemma hex_Decode_Encode (bs : list Z) :
  Forall isByte bs -> hex_Decode (hex_EncodeToString bs) = Some bs.
Proof.
  induction 1 as [|b bs Hb _ IH]; [reflexivity|].
  cbn [hex_EncodeToString hex_Decode]. unfold isByte in Hb.
  assert (Hhi : Z.shiftr b 4 = (b / 16)%Z) by (now rewrite Z.shiftr_div_pow2).
  assert (Hlo : Z.land b 0x0F = (b mod 16)%Z)
    by (change 0x0F%Z with (Z.ones 4); now rewrite Z.land_ones).
  rewrite Hhi, Hlo, !hexval_hexdigit, IH.
  - f_equal. f_equal. pose proof (Z.div_mod b 16). lia.
  - apply Z.mod_pos_bound. lia.
  - split; [apply Z.div_pos; lia|apply Z.div_lt_upper_bound; lia].
Qed.

Lemma isByte_land (x : Z) : isByte (Z.land x 0xFF).
Proof.
  unfold isByte. change 0xFF%Z with (Z.ones 8). rewrite Z.land_ones by lia.
  apply Z.mod_pos_bound. lia.
Qed.

Lemma isByte_lxor (a b : Z) : isByte a -> isByte b -> isByte (Z.lxor a b).
Proof.
  unfold isByte. intros Ha Hb.
  assert (Hnn : (0 <= Z.lxor a b)%Z) by (apply Z.lxor_nonneg; lia).
  split; [exact Hnn|].
  destruct (Z.eq_dec (Z.lxor a b) 0%Z) as [->|Hne]; [lia|].
  change 256%Z with (2 ^ 8)%Z. apply (Z.log2_lt_pow2 _ 8); [lia|].
  pose proof (Z.log2_lxor a b ltac:(lia) ltac:(lia)) as Hlog.
  assert (Hlog2 : forall x, (0 <= x < 256)%Z -> (Z.log2 x < 8)%Z).
  { intros x Hx. destruct (Z.eq_dec x 0%Z) as [->|]; [cbn; lia|].
    apply Z.log2_lt_pow2; [lia|]. change (2 ^ 8)%Z with 256%Z. lia. }
  pose proof (Hlog2 a Ha). pose proof (Hlog2 b Hb). lia.
Qed.

Lemma Sum256_bytes (msg : list Z) : Forall isByte (SHA256.Sum256 msg).
Proof.
  unfold SHA256.Sum256, SHA256.word_bytes.
  repeat (apply Forall_app; split); repeat constructor; apply isByte_land.
Qed.

Lemma xor_bytes_bytes (a b : list Z) :
  Forall isByte a -> Forall isByte b -> Forall isByte (PBKDF2.xor_bytes a b).
Proof.
  unfold PBKDF2.xor_bytes. intros Ha. revert b.
  induction Ha as [|x a Hx _ IH]; intros b Hb; [constructor|].
  destruct Hb as [|y b Hy Hb]; [constructor|].
  cbn [combine List.map fst snd]. constructor; [now apply isByte_lxor|now apply IH].
Qed.

Lemma rounds_bytes (password : list Z) (n : nat) :
  forall U T, Forall isByte T -> Forall isByte (PBKDF2.rounds password n U T).
Proof.
  induction n as [|n IH]; intros U T HT; cbn [PBKDF2.rounds]; [exact HT|].
  apply IH, xor_bytes_bytes; [exact HT|apply Sum256_bytes].
Qed.

Lemma Key_bytes (password salt : list Z) (iter keyLen : nat) :
  Forall isByte (PBKDF2.Key password salt iter keyLen).
Proof.
  unfold PBKDF2.Key. apply Forall_take.
  generalize (seq 1 ((keyLen + SHA256.Size - 1) / SHA256.Size)). intros l.
  induction l as [|i l IH]; cbn [flat_map]; [constructor|].
  apply Forall_app. split; [|exact IH].
  unfold PBKDF2.block. apply rounds_bytes, Sum256_bytes.
Qed.

Lemma pbkdf2Hex_decodes (password salt : string) :
  hex_Decode (pbkdf2Hex password salt)
  = Some (PBKDF2.Key (bytes_of_string password) (bytes_of_string salt) 1000 16).
Proof. rewrite pbkdf2Hex_unfold. apply hex_Decode_Encode, Key_bytes. Qed.


(** ** strings.Contains *)

Lemma prefix_true (p s : string) :
  String.prefix p s = true <-> exists post, s = p ++ post.
Proof.
  revert s. induction p as [|c p IH]; intros s.
  - split; [intros _; now exists s|now destruct s].
  - destruct s as [|d s]; cbn [String.prefix].
    + split; [discriminate|]. intros [post Hpost]. cbn in Hpost. discriminate.
    + destruct (ascii_dec c d) as [<-|Hne].
      * rewrite IH. split; intros [post Hpost]; exists post.
        -- now rewrite Hpost.
        -- cbn in Hpost. now injection Hpost.
      * split; [discriminate|]. intros [post Hpost]. cbn in Hpost.
        injection Hpost as Hcd _. now destruct Hne.
Qed.

Lemma strings_Contains_spec (s substr : string) :
  strings_Contains s substr = true <-> Substring substr s.
Proof.
  unfold Substring. induction s as [|c s IH]; cbn [strings_Contains].
  - rewrite orb_false_r, prefix_true. split.
    + intros [post ->]. now exists "", post.
    + intros [[|d pre] [post H]]; [now exists post|cbn in H; discriminate].
  - rewrite orb_true_iff, prefix_true, IH. split.
    + intros [[post ->]|(pre & post & ->)].
      * now exists "", post.
      * now exists (String c pre), post.
    + intros [[|d pre] [post H]].
      * left. now exists post.
      * right. cbn in H. injection H as _ ->. now exists pre, post.
Qed.

Lemma append_empty_r (s : string) : s ++ "" = s.
Proof.
  induction s as [|c s IH]; [reflexivity|].
  change (String c s ++ "") with (String c (s ++ "")). now rewrite IH.
Qed.

Lemma Substring_suffix (prefix s : string) : Substring s (prefix ++ s).
Proof. exists prefix, "". now rewrite append_empty_r. Qed.

(** ** The client *)

Section ClientFacts.

Context {rt : Runtime}.

Implicit Types (h : HomeStationClient) (w : World) (t : list Event).

Lemma bind_unfold {A B : Type} (m : M A) (k : A -> M B) w :
  bind m k w
  = let '(a, w1, t1) := m w in
    let '(b, w2, t2) := k a w1 in
    (b, w2, (t1 ++ t2)%list).
Proof. reflexivity. Qed.

Lemma bind_run {A B : Type} (m : M A) (k : A -> M B) w a w1 t1 b w2 t2 :
  m w = (a, w1, t1) -> k a w1 = (b, w2, t2) ->
  bind m k w = (b, w2, (t1 ++ t2)%list).
Proof. intros Hm Hk. now rewrite bind_unfold, Hm, Hk. Qed.

(** Each request helper logs the one call it stands for, whatever comes
    of the request. *)
Lemma doPostForm_log h u form w : (doPostForm h u form w).2 = [EvPostForm u form].
Proof.
  unfold doPostForm, emit, ret, roundTrip. rewrite bind_unfold.
  destruct (http_NewRequest "POST" u (Some (Values_Encode form))) as [err|req].
  - reflexivity.
  - destruct (client_Do _ w) as [r w']. reflexivity.
Qed.

Lemma doGet_log h u w : (doGet h u w).2 = [EvGet u].
Proof.
  unfold doGet, emit, ret, roundTrip. rewrite bind_unfold.
  destruct (http_NewRequest "GET" u None) as [err|req].
  - reflexivity.
  - destruct (client_Do _ w) as [r w']. reflexivity.
Qed.

Lemma doPostForm_run h u form w r w' t :
  doPostForm h u form w = (r, w', t) -> t = [EvPostForm u form].
Proof. intros H. rewrite <- (doPostForm_log h u form w), H. reflexivity. Qed.

Lemma doGet_run h u w r w' t :
  doGet h u w = (r, w', t) -> t = [EvGet u].
Proof. intros H. rewrite <- (doGet_log h u w), H. reflexivity. Qed.

Lemma call_pbkdf2Hex_run (password salt : string) w :
  call_pbkdf2Hex password salt w = (pbkdf2Hex password salt, w, [EvHash password salt]).
Proof. reflexivity. Qed.

Lemma activateSession_run h w r w' t :
  doGet h (menuURL h) w = (r, w', t) ->
  activateSession h w = (tt, w', [EvGet (menuURL h)]).
Proof.
  intros H. unfold activateSession. rewrite bind_unfold, H.
  rewrite (doGet_run _ _ _ _ _ _ H). reflexivity.
Qed.

Lemma logout_run h w r w' t :
  doPostForm h (logoutURL h) ∅ w = (r, w', t) ->
  logout h w = (tt, w', [EvPostForm (logoutURL h) ∅]).
Proof.
  intros H. unfold logout. rewrite bind_unfold, H.
  rewrite (doPostForm_run _ _ _ _ _ _ _ H). reflexivity.
Qed.

(** *** The paths through tryLogin *)

Ltac login_step :=
  first
    [ rewrite bind_unfold
    | rewrite call_pbkdf2Hex_run
    | match goal with
      | H : doPostForm _ _ _ _ = _ |- _ => rewrite H
      | H : activateSession _ _ = _ |- _ => rewrite H
      | H : json_Unmarshal_saltResp _ = _ |- _ => rewrite H
      | H : json_Unmarshal_map _ = _ |- _ => rewrite H
      | H : String.eqb _ _ = _ |- _ => rewrite H
      | H : assert_string _ = _ |- _ => rewrite H
      | H : strings_Contains _ _ = _ |- _ => rewrite H
      end
    | progress cbv beta iota zeta ].

Ltac login_run := unfold tryLogin; repeat login_step.

Lemma tryLogin_challenge_error h w err w1 t1 :
  doPostForm h (loginURL h) (loginForm h "seeksalthash") w = (inl err, w1, t1) ->
  tryLogin h w = (Some (fmt_Errorf_w "failed requesting salt: " err), w1, t1).
Proof.
  intros H. login_run. unfold ret. now rewrite app_nil_r.
Qed.

Lemma tryLogin_salt_unparsed h w body w1 t1 err :
  doPostForm h (loginURL h) (loginForm h "seeksalthash") w = (inr body, w1, t1) ->
  json_Unmarshal_saltResp body = inl err ->
  tryLogin h w = (Some (fmt_Errorf_w "failed parsing salt response: " err), w1, t1).
Proof.
  intros H1 H2. login_run. unfold ret. now rewrite app_nil_r.
Qed.

Lemma tryLogin_no_salt h w body w1 t1 sr :
  doPostForm h (loginURL h) (loginForm h "seeksalthash") w = (inr body, w1, t1) ->
  json_Unmarshal_saltResp body = inr sr ->
  Salt sr = "" ->
  tryLogin h w = (Some (errors_New "no salt returned from router"), w1, t1).
Proof.
  intros H1 H2 H3. login_run. rewrite H3. cbn [String.eqb].
  unfold ret. now rewrite app_nil_r.
Qed.

Lemma tryLogin_no_saltwebui h w body w1 t1 sr :
  doPostForm h (loginURL h) (loginForm h "seeksalthash") w = (inr body, w1, t1) ->
  json_Unmarshal_saltResp body = inr sr ->
  Salt sr <> "" -> SaltWebUI sr = "" ->
  tryLogin h w = (Some (errors_New "no saltwebui returned from router"), w1, t1).
Proof.
  intros H1 H2 H3%String.eqb_neq H4. login_run. rewrite H4. cbn [String.eqb].
  unfold ret. now rewrite app_nil_r.
Qed.

Lemma is_string_dec (v : option any) (s : string) :
  {v = Some (anyString s)} + {v <> Some (anyString s)}.
Proof.
  destruct v as [[| | |e| |]|]; try (right; congruence).
  destruct (String.eqb_spec e s) as [->|Hne]; [now left|right; congruence].
Qed.

(** From here on the challenge request was answered with a salt pair. *)
Section AfterChallenge.

Variables (h : HomeStationClient) (w w1 : World) (t1 : list Event).
Variables (body : string) (sr : saltResp).
Hypothesis Hchallenge :
  doPostForm h (loginURL h) (loginForm h "seeksalthash") w = (inr body, w1, t1).
Hypothesis Hsalts : json_Unmarshal_saltResp body = inr sr.
Hypothesis Hsalt : Salt sr <> "".
Hypothesis Hsaltwebui : SaltWebUI sr <> "".

Let hash1 : string := pbkdf2Hex (pass h) (Salt sr).
Let finalHash : string := pbkdf2Hex hash1 (SaltWebUI sr).
Let hashes : list Event := [EvHash (pass h) (Salt sr); EvHash hash1 (SaltWebUI sr)].

Variables (w2 : World) (t2 : list Event).

Ltac after_challenge :=
  pose proof (proj2 (String.eqb_neq _ _) Hsalt);
  pose proof (proj2 (String.eqb_neq _ _) Hsaltwebui);
  subst hash1 finalHash hashes; login_run.

Lemma tryLogin_submit_error err :
  doPostForm h (loginURL h) (loginForm h finalHash) w1 = (inl err, w2, t2) ->
  tryLogin h w
  = (Some (fmt_Errorf_w "failed posting hashed password: " err), w2,
     (t1 ++ hashes ++ t2)%list).
Proof.
  intros Hsubmit. after_challenge. unfold ret. now rewrite app_nil_r.
Qed.

Lemma tryLogin_reply_unparsed resp2body err :
  doPostForm h (loginURL h) (loginForm h finalHash) w1 = (inr resp2body, w2, t2) ->
  json_Unmarshal_map resp2body = inl err ->
  tryLogin h w
  = (Some (errors_New "login failed with provided credentials"), w2,
     (t1 ++ hashes ++ t2)%list).
Proof.
  intros Hsubmit Hjr. after_challenge. unfold ret. now rewrite app_nil_r.
Qed.

Lemma tryLogin_reply_ok resp2body jr rm w3 t3 :
  doPostForm h (loginURL h) (loginForm h finalHash) w1 = (inr resp2body, w2, t2) ->
  json_Unmarshal_map resp2body = inr jr ->
  jr !! "error" = Some (anyString "ok") ->
  doGet h (menuURL h) w2 = (rm, w3, t3) ->
  tryLogin h w = (None, w3, (t1 ++ hashes ++ t2 ++ [EvGet (menuURL h)])%list).
Proof.
  intros Hsubmit Hjr Hok Hmenu.
  pose proof (activateSession_run _ _ _ _ _ Hmenu) as Hact.
  after_challenge. rewrite Hok. cbn [assert_string String.eqb Ascii.eqb Bool.eqb].
  login_run. reflexivity.
Qed.

Lemma tryLogin_reply_blocked resp2body jr msg :
  doPostForm h (loginURL h) (loginForm h finalHash) w1 = (inr resp2body, w2, t2) ->
  json_Unmarshal_map resp2body = inr jr ->
  jr !! "error" <> Some (anyString "ok") ->
  jr !! "message" = Some (anyString msg) ->
  strings_Contains msg "MSG_LOGIN_150" = true ->
  tryLogin h w
  = (Some (fmt_Errorf_s "An active session exists. Logout first. " msg), w2,
     (t1 ++ hashes ++ t2)%list).
Proof.
  intros Hsubmit Hjr Hnok Hmsg Hcontains. after_challenge.
  rewrite Hmsg. cbn [assert_string]. rewrite Hcontains.
  destruct (jr !! "error") as [[| | |e| |]|]; cbn [assert_string];
    try (unfold ret; now rewrite app_nil_r).
  destruct (String.eqb_spec e "ok") as [->|_]; [now destruct Hnok|].
  unfold ret. now rewrite app_nil_r.
Qed.

Lemma tryLogin_reply_rejected resp2body jr :
  doPostForm h (loginURL h) (loginForm h finalHash) w1 = (inr resp2body, w2, t2) ->
  json_Unmarshal_map resp2body = inr jr ->
  jr !! "error" <> Some (anyString "ok") ->
  (forall msg, jr !! "message" = Some (anyString msg) ->
               strings_Contains msg "MSG_LOGIN_150" = false) ->
  tryLogin h w
  = (Some (errors_New "login failed with provided credentials"), w2,
     (t1 ++ hashes ++ t2)%list).
Proof.
  intros Hsubmit Hjr Hnok Hmsg. after_challenge.
  assert (Hcheck :
    match assert_string (jr !! "message") with
    | Some msg =>
        if strings_Contains msg "MSG_LOGIN_150"
        then ret (Some (fmt_Errorf_s "An active session exists. Logout first. " msg))
        else ret (Some (errors_New "login failed with provided credentials"))
    | None => ret (Some (errors_New "login failed with provided credentials"))
    end w2 = (Some (errors_New "login failed with provided credentials"), w2, [])).
  { destruct (jr !! "message") as [[| | |msg| |]|] eqn:E; cbn [assert_string];
      try reflexivity.
    now rewrite (Hmsg msg eq_refl). }
  destruct (jr !! "error") as [[| | |e| |]|]; cbn [assert_string];
    try (rewrite Hcheck; now rewrite app_nil_r).
  destruct (String.eqb_spec e "ok") as [->|_]; [now destruct Hnok|].
  rewrite Hcheck. now rewrite app_nil_r.
Qed.

(** Whatever the reply, the run makes these calls, and after them at
    most the GET that activates the session. *)
Lemma tryLogin_submits r2 :
  doPostForm h (loginURL h) (loginForm h finalHash) w1 = (r2, w2, t2) ->
  exists outcome w3 t3,
    tryLogin h w = (outcome, w3, (t1 ++ hashes ++ t2 ++ t3)%list) /\
    (t3 = [] \/ t3 = [EvGet (menuURL h)]).
Proof.
  intros Hsubmit. destruct r2 as [err|resp2body].
  { eexists _, _, []. split; [|now left].
    rewrite app_nil_r. eapply tryLogin_submit_error; eassumption. }
  destruct (json_Unmarshal_map resp2body) as [err|jr] eqn:Ejr.
  { eexists _, _, []. split; [|now left].
    rewrite app_nil_r. eapply tryLogin_reply_unparsed; eassumption. }
  destruct (is_string_dec (jr !! "error") "ok") as [Hok|Hnok].
  { destruct (doGet h (menuURL h) w2) as [[rm w3] t3] eqn:Emenu.
    eexists _, _, _. split; [|now right].
    eapply tryLogin_reply_ok; eassumption. }
  destruct (jr !! "message") as [[| | |msg| |]|] eqn:Emsg;
    try (eexists _, _, []; split; [|now left]; rewrite app_nil_r;
         eapply tryLogin_reply_rejected; [eassumption..|intros ? ?; congruence]).
  destruct (strings_Contains msg "MSG_LOGIN_150") eqn:Ec.
  - eexists _, _, []. split; [|now left].
    rewrite app_nil_r. eapply tryLogin_reply_blocked; eassumption.
  - eexists _, _, []. split; [|now left]. rewrite app_nil_r.
    eapply tryLogin_reply_rejected; [eassumption..|intros ? ?; congruence].
Qed.

End AfterChallenge.

(** *** Which calls a login makes *)

Lemma logs_ret {A : Type} (P : Event -> Prop) (a : A) : logs P (ret a).
Proof. intros w. constructor. Qed.

Lemma logs_bind {A B : Type} (P : Event -> Prop) (m : M A) (k : A -> M B) :
  logs P m -> (forall a, logs P (k a)) -> logs P (bind m k).
Proof.
  intros Hm Hk w. rewrite bind_unfold.
  specialize (Hm w). destruct (m w) as [[a w1] ta].
  specialize (Hk a w1). destruct (k a w1) as [[b w2] tb].
  cbn in *. apply Forall_app. now split.
Qed.

Lemma logs_doPostForm (P : Event -> Prop) h u form :
  P (EvPostForm u form) -> logs P (doPostForm h u form).
Proof. intros HP w. rewrite doPostForm_log. now repeat constructor. Qed.

Lemma logs_doGet (P : Event -> Prop) h u :
  P (EvGet u) -> logs P (doGet h u).
Proof. intros HP w. rewrite doGet_log. now repeat constructor. Qed.

Lemma logs_call_pbkdf2Hex (P : Event -> Prop) (password salt : string) :
  P (EvHash password salt) -> logs P (call_pbkdf2Hex password salt).
Proof. intros HP w. rewrite call_pbkdf2Hex_run. now repeat constructor. Qed.

Ltac logs_cases :=
  repeat first
    [ apply logs_ret
    | apply logs_doPostForm
    | apply logs_doGet
    | apply logs_call_pbkdf2Hex
    | apply logs_bind; [ | intros ? ]
    | match goal with
      | |- logs _ (match ?x with _ => _ end) => destruct x
      end
    | progress cbv zeta ].

Lemma tryLogin_logs h : logs (loginEvent h) (tryLogin h).
Proof.
  unfold tryLogin, activateSession.
  logs_cases; reflexivity || exact I.
Qed.

(** *** The endpoints are distinct *)

Lemma append_inv_head (b x y : string) : b ++ x = b ++ y -> x = y.
Proof.
  induction b as [|c b IH]; cbn; [trivial|].
  intros E. injection E as E. now apply IH.
Qed.

Lemma eqb_append_l (b x y : string) : String.eqb (b ++ x) (b ++ y) = String.eqb x y.
Proof.
  apply Bool.eq_iff_eq_true. rewrite !String.eqb_eq. split.
  - apply append_inv_head.
  - now intros ->.
Qed.

Lemma loginEvent_elsewhere h ev :
  loginEvent h ev ->
  requestTo (hostTblURL h) ev = false /\ requestTo (logoutURL h) ev = false.
Proof.
  destruct ev as [u form|u|p s]; cbn [loginEvent requestTo]; intros Hev;
    [subst u|subst u|]; split; try reflexivity;
    unfold loginURL, menuURL, hostTblURL, logoutURL; now rewrite eqb_append_l.
Qed.

Lemma filter_none {A : Type} (f : A -> bool) (l : list A) :
  Forall (fun x => f x = false) l -> List.filter f l = [].
Proof.
  induction 1 as [|x l Hx _ IH]; [reflexivity|].
  cbn [List.filter]. now rewrite Hx.
Qed.

(** *** fetchHostTbl *)

Lemma fold_append_map {A B : Type} (f : A -> B) (l : list A) (acc : list B) :
  fold_left (fun out e => (out ++ [f e])%list) l acc = (acc ++ List.map f l)%list.
Proof.
  revert acc. induction l as [|x l IH]; intros acc; cbn [fold_left List.map].
  - now rewrite app_nil_r.
  - rewrite IH, <- app_assoc. reflexivity.
Qed.

Lemma fetchHostTbl_log h w : (fetchHostTbl h w).2 = [EvGet (hostTblURL h)].
Proof.
  unfold fetchHostTbl. rewrite bind_unfold.
  pose proof (doGet_log h (hostTblURL h) w) as Hlog.
  destruct (doGet h (hostTblURL h) w) as [[r w1] t]. cbn in Hlog. subst t.
  destruct r as [err|body]; [reflexivity|].
  destruct (json_Unmarshal_hostTblResp body) as [err|r]; [reflexivity|].
  now destruct (negb _).
Qed.

Lemma fetchHostTbl_run h w r w' t :
  fetchHostTbl h w = (r, w', t) -> t = [EvGet (hostTblURL h)].
Proof. intros H. rewrite <- (fetchHostTbl_log h w), H. reflexivity. Qed.

(** *** The claims about the login *)

(** C4: when the salt response lacks the salt or the saltwebui field (the
    decoded field is the empty string, which is what an absent field
    decodes to), the login fails with the error that names the missing
    value, and the run has made one call only, the challenge request: no
    hash was computed and no credentials were submitted. *)
Theorem tryLogin_missing_challenge_data h w body w1 t1 sr :
  doPostForm h (loginURL h) (loginForm h "seeksalthash") w = (inr body, w1, t1) ->
  json_Unmarshal_saltResp body = inr sr ->
  Salt sr = "" \/ SaltWebUI sr = "" ->
  exists err,
    tryLogin h w
    = (Some err, w1, [EvPostForm (loginURL h) (loginForm h "seeksalthash")]) /\
    (err = errorString "no salt returned from router" \/
     err = errorString "no saltwebui returned from router").
Proof.
  intros Hchallenge Hsalts Hmissing.
  rewrite <- (doPostForm_run _ _ _ _ _ _ _ Hchallenge).
  destruct (String.eqb_spec (Salt sr) "") as [Hs|Hs].
  - eexists. split; [|left; reflexivity].
    now apply tryLogin_no_salt with body sr.
  - destruct Hmissing as [Hs'|Hw]; [now destruct Hs|].
    eexists. split; [|right; reflexivity].
    now apply tryLogin_no_saltwebui with body sr.
Qed.

(** C10: the error field of the salt response is not looked at.  Whatever
    it holds, a salt response with a salt and a saltwebui makes the run go
    on: it hashes the password with the salt, hashes the result with the
    saltwebui, and submits the user name with the final hash. *)
Theorem tryLogin_ignores_salt_error_field h w body w1 t1 e salt saltWebUI :
  doPostForm h (loginURL h) (loginForm h "seeksalthash") w = (inr body, w1, t1) ->
  json_Unmarshal_saltResp body = inr (mkSaltResp e salt saltWebUI) ->
  salt <> "" -> saltWebUI <> "" ->
  exists outcome w' rest,
    tryLogin h w
    = (outcome, w',
       ([ EvPostForm (loginURL h) (loginForm h "seeksalthash");
          EvHash (pass h) salt;
          EvHash (pbkdf2Hex (pass h) salt) saltWebUI;
          EvPostForm (loginURL h)
            (loginForm h (pbkdf2Hex (pbkdf2Hex (pass h) salt) saltWebUI)) ]
        ++ rest)%list).
Proof.
  intros Hchallenge Hsalts Hsalt Hsaltwebui.
  destruct (doPostForm h (loginURL h)
              (loginForm h (pbkdf2Hex (pbkdf2Hex (pass h) salt) saltWebUI)) w1)
    as [[r2 w2] t2] eqn:Hsubmit.
  destruct (tryLogin_submits h w w1 t1 body _ Hchallenge Hsalts Hsalt Hsaltwebui
              w2 t2 r2 Hsubmit) as (outcome & w3 & t3 & Hrun & _).
  exists outcome, w3, t3. rewrite Hrun.
  rewrite (doPostForm_run _ _ _ _ _ _ _ Hchallenge), (doPostForm_run _ _ _ _ _ _ _ Hsubmit).
  reflexivity.
Qed.

(** C3: the reply to the credential-submit request, once parsed, decides
    the outcome.  An error field equal to ok: success.  Otherwise, a
    message field containing MSG_LOGIN_150: the Blocked error, whose text
    ends with the router's message.  Otherwise: the generic Rejected
    error. *)
Theorem tryLogin_reply_outcome h w body w1 t1 sr resp2body w2 t2 jr :
  doPostForm h (loginURL h) (loginForm h "seeksalthash") w = (inr body, w1, t1) ->
  json_Unmarshal_saltResp body = inr sr ->
  Salt sr <> "" -> SaltWebUI sr <> "" ->
  doPostForm h (loginURL h)
    (loginForm h (pbkdf2Hex (pbkdf2Hex (pass h) (Salt sr)) (SaltWebUI sr))) w1
  = (inr resp2body, w2, t2) ->
  json_Unmarshal_map resp2body = inr jr ->
  let outcome := (tryLogin h w).1.1 in
  (jr !! "error" = Some (anyString "ok") -> outcome = None) /\
  (jr !! "error" <> Some (anyString "ok") ->
   forall msg, jr !! "message" = Some (anyString msg) ->
     Substring "MSG_LOGIN_150" msg ->
     exists err, outcome = Some err /\
       Error err = "An active session exists. Logout first. " ++ msg /\
       Substring msg (Error err)) /\
  (jr !! "error" <> Some (anyString "ok") ->
   (forall msg, jr !! "message" = Some (anyString msg) ->
      ~ Substring "MSG_LOGIN_150" msg) ->
   outcome = Some (errorString "login failed with provided credentials")).
Proof.
  intros Hchallenge Hsalts Hsalt Hsaltwebui Hsubmit Hjr outcome. subst outcome.
  repeat split.
  - intros Hok.
    destruct (doGet h (menuURL h) w2) as [[rm w3] t3] eqn:Hmenu.
    now rewrite (tryLogin_reply_ok h w w1 t1 body sr Hchallenge Hsalts Hsalt Hsaltwebui
                   w2 t2 resp2body jr rm w3 t3 Hsubmit Hjr Hok Hmenu).
  - intros Hnok msg Hmsg Hcontains%strings_Contains_spec.
    rewrite (tryLogin_reply_blocked h w w1 t1 body sr Hchallenge Hsalts Hsalt Hsaltwebui
               w2 t2 resp2body jr msg Hsubmit Hjr Hnok Hmsg Hcontains).
    eexists. split; [reflexivity|]. split; [reflexivity|]. apply Substring_suffix.
  - intros Hnok Hmsg.
    rewrite (tryLogin_reply_rejected h w w1 t1 body sr Hchallenge Hsalts Hsalt Hsaltwebui
               w2 t2 resp2body jr Hsubmit Hjr Hnok); [reflexivity|].
    intros msg Hm. specialize (Hmsg msg Hm).
    destruct (strings_Contains msg "MSG_LOGIN_150") eqn:Ec; [|reflexivity].
    now apply strings_Contains_spec in Ec.
Qed.

(** C5: when the reply to the credential-submit request has the error
    field ok, the run makes one GET to the session-menu endpoint, as its
    last call, and reports success whatever that GET returns, an error
    included. *)
Theorem tryLogin_activates_session h w body w1 t1 sr resp2body w2 t2 jr rm w3 t3 :
  doPostForm h (loginURL h) (loginForm h "seeksalthash") w = (inr body, w1, t1) ->
  json_Unmarshal_saltResp body = inr sr ->
  Salt sr <> "" -> SaltWebUI sr <> "" ->
  doPostForm h (loginURL h)
    (loginForm h (pbkdf2Hex (pbkdf2Hex (pass h) (Salt sr)) (SaltWebUI sr))) w1
  = (inr resp2body, w2, t2) ->
  json_Unmarshal_map resp2body = inr jr ->
  jr !! "error" = Some (anyString "ok") ->
  doGet h (menuURL h) w2 = (rm, w3, t3) ->
  let calls :=
    (t1 ++ [ EvHash (pass h) (Salt sr);
             EvHash (pbkdf2Hex (pass h) (Salt sr)) (SaltWebUI sr) ]
        ++ t2 ++ [EvGet (menuURL h)])%list in
  tryLogin h w = (None, w3, calls) /\
  List.filter (requestTo (menuURL h)) calls = [EvGet (menuURL h)].
Proof.
  intros Hchallenge Hsalts Hsalt Hsaltwebui Hsubmit Hjr Hok Hmenu calls. subst calls.
  split.
  - exact (tryLogin_reply_ok h w w1 t1 body sr Hchallenge Hsalts Hsalt Hsaltwebui
             w2 t2 resp2body jr rm w3 t3 Hsubmit Hjr Hok Hmenu).
  - rewrite (doPostForm_run _ _ _ _ _ _ _ Hchallenge), (doPostForm_run _ _ _ _ _ _ _ Hsubmit).
    cbn [List.filter requestTo app]. unfold loginURL, menuURL.
    now rewrite eqb_append_l, String.eqb_refl.
Qed.

(** C9: a reply to the credential-submit request that does not decode (it
    is no JSON text, or no JSON object), and one that decodes to no fields
    at all (the text null), yield the generic Rejected error and no parse
    error; a salt response that does not decode yields an error that wraps
    the decoder's. *)
Theorem tryLogin_undecodable_replies h :
  (forall w body w1 t1 sr resp2body w2 t2,
     doPostForm h (loginURL h) (loginForm h "seeksalthash") w = (inr body, w1, t1) ->
     json_Unmarshal_saltResp body = inr sr ->
     Salt sr <> "" -> SaltWebUI sr <> "" ->
     doPostForm h (loginURL h)
       (loginForm h (pbkdf2Hex (pbkdf2Hex (pass h) (Salt sr)) (SaltWebUI sr))) w1
     = (inr resp2body, w2, t2) ->
     (exists err, json_Unmarshal_map resp2body = inl err) \/
     json_Unmarshal_map resp2body = inr ∅ ->
     (tryLogin h w).1.1
     = Some (errorString "login failed with provided credentials")) /\
  (forall w body w1 t1 err,
     doPostForm h (loginURL h) (loginForm h "seeksalthash") w = (inr body, w1, t1) ->
     json_Unmarshal_saltResp body = inl err ->
     (tryLogin h w).1.1
     = Some (wrapError ("failed parsing salt response: " ++ Error err) err)).
Proof.
  split.
  - intros w body w1 t1 sr resp2body w2 t2 Hchallenge Hsalts Hsalt Hsaltwebui Hsubmit
      [[err Hjr]|Hjr].
    + now rewrite (tryLogin_reply_unparsed h w w1 t1 body sr Hchallenge Hsalts Hsalt
                     Hsaltwebui w2 t2 resp2body err Hsubmit Hjr).
    + rewrite (tryLogin_reply_rejected h w w1 t1 body sr Hchallenge Hsalts Hsalt
                 Hsaltwebui w2 t2 resp2body ∅ Hsubmit Hjr); [reflexivity| |].
      * now rewrite lookup_empty.
      * intros msg. now rewrite lookup_empty.
  - intros w body w1 t1 err Hchallenge Hsalts.
    now rewrite (tryLogin_salt_unparsed h w body w1 t1 err Hchallenge Hsalts).
Qed.

(** *** The claims about the device list and the facade *)

(** C7: a host table whose error field is ok yields one Device per host
    record, in the router's order, with the three strings copied and
    Active set exactly for the active string true; an empty host list
    yields an empty device list; no error is returned. *)
Theorem fetchHostTbl_maps_records h w body w1 t r :
  doGet h (hostTblURL h) w = (inr body, w1, t) ->
  json_Unmarshal_hostTblResp body = inr r ->
  hostTblResp_Error r = "ok" ->
  exists devices,
    fetchHostTbl h w = ((devices, None), w1, t) /\
    length devices = length (HostTbl (Data r)) /\
    (forall (i : nat) (e : hostEntry),
       HostTbl (Data r) !! i = Some e ->
       exists d, devices !! i = Some d /\
         MAC d = Physaddress e /\ IP d = Ipaddress e /\
         Hostname d = hostEntry_Hostname e /\
         (Active d = true <-> hostEntry_Active e = "true")) /\
    (HostTbl (Data r) = [] -> devices = []).
Proof.
  intros Hget Hdecode Hok.
  exists (List.map deviceOf (HostTbl (Data r))).
  split; [|split; [|split]].
  - unfold fetchHostTbl. rewrite bind_unfold, Hget. cbv beta iota zeta.
    rewrite Hdecode, Hok. cbn [String.eqb Ascii.eqb Bool.eqb negb].
    rewrite fold_append_map. unfold ret. now rewrite app_nil_r.
  - apply List.length_map.
  - intros i e Hi. exists (deviceOf e). split.
    + change (List.map deviceOf (HostTbl (Data r))) with (deviceOf <$> HostTbl (Data r)).
      now rewrite list_lookup_fmap, Hi.
    + unfold deviceOf; cbn [MAC IP Hostname Active]. repeat split.
      * now destruct (String.eqb_spec (hostEntry_Active e) "true").
      * intros ->. reflexivity.
  - intros ->. reflexivity.
Qed.

(** C2: when the login fails, ListConnected returns the login's error
    with no devices, and the run made the login's calls only, none of
    which is a request to the host-table or to the logout endpoint. *)
Theorem ListConnected_login_failure h w err w1 t1 :
  tryLogin h w = (Some err, w1, t1) ->
  ListConnected h w = (([], Some err), w1, t1) /\
  Forall (fun ev => requestTo (hostTblURL h) ev = false /\
                    requestTo (logoutURL h) ev = false) t1.
Proof.
  intros Hlogin. split.
  - unfold ListConnected. rewrite bind_unfold, Hlogin. unfold ret.
    now rewrite app_nil_r.
  - pose proof (tryLogin_logs h w) as Hlogs. rewrite Hlogin in Hlogs. cbn in Hlogs.
    eapply Forall_impl; [exact Hlogs|]. apply loginEvent_elsewhere.
Qed.

(** C1: when the login succeeds, ListConnected fetches the host table,
    then posts the logout request, and returns what the fetch returned,
    devices and error alike, whatever the logout request comes to.  The
    logout request is the last call of the run and the only request to the
    logout endpoint. *)
Theorem ListConnected_logout_after_fetch h w w1 t1 r w2 t2 lo w3 t3 :
  tryLogin h w = (None, w1, t1) ->
  fetchHostTbl h w1 = (r, w2, t2) ->
  doPostForm h (logoutURL h) ∅ w2 = (lo, w3, t3) ->
  ListConnected h w = (r, w3, (t1 ++ t2 ++ t3)%list) /\
  t2 = [EvGet (hostTblURL h)] /\
  t3 = [EvPostForm (logoutURL h) ∅] /\
  List.filter (requestTo (logoutURL h)) (t1 ++ t2 ++ t3)
  = [EvPostForm (logoutURL h) ∅].
Proof.
  intros Hlogin Hfetch Hlogout.
  pose proof (fetchHostTbl_run _ _ _ _ _ Hfetch) as Ht2.
  pose proof (doPostForm_run _ _ _ _ _ _ _ Hlogout) as Ht3.
  repeat split; try assumption.
  - unfold ListConnected. rewrite bind_unfold, Hlogin. cbv beta iota zeta.
    rewrite bind_unfold, Hfetch, bind_unfold, (logout_run _ _ _ _ _ Hlogout).
    unfold ret. rewrite Ht3. now rewrite app_nil_r.
  - subst t2 t3. rewrite !List.filter_app.
    rewrite (filter_none (requestTo (logoutURL h)) t1).
    + cbn [List.filter requestTo app]. unfold hostTblURL, logoutURL.
      now rewrite eqb_append_l, String.eqb_refl.
    + pose proof (tryLogin_logs h w) as Hlogs. rewrite Hlogin in Hlogs. cbn in Hlogs.
      eapply Forall_impl; [exact Hlogs|]. intros ev Hev.
      now apply loginEvent_elsewhere.
Qed.

(** *** The hasher in the login *)

(** C6: pbkdf2Hex is the lowercase hex text of the PBKDF2 key with
    HMAC-SHA-256, 1000 iterations and 16 bytes, and decodes back to that
    key; being a function it gives equal results on equal inputs; its
    result has exactly 32 characters, all in [0-9a-f].  A login that has
    its salt pair calls it exactly twice, on the password with the salt
    and on that result with the saltwebui, and submits the second result
    as the password. *)
Theorem pbkdf2Hex_derives_key :
  (forall secret salt : string,
     pbkdf2Hex secret salt
     = hex_EncodeToString
         (PBKDF2.Key (bytes_of_string secret) (bytes_of_string salt) 1000 16) /\
     List.length (PBKDF2.Key (bytes_of_string secret) (bytes_of_string salt) 1000 16)
     = 16%nat /\
     hex_Decode (pbkdf2Hex secret salt)
     = Some (PBKDF2.Key (bytes_of_string secret) (bytes_of_string salt) 1000 16) /\
     String.length (pbkdf2Hex secret salt) = 32%nat /\
     forallb isLowerHex (list_ascii_of_string (pbkdf2Hex secret salt)) = true) /\
  (forall secret secret' salt salt' : string,
     secret = secret' -> salt = salt' ->
     pbkdf2Hex secret salt = pbkdf2Hex secret' salt') /\
  (forall h w body w1 t1 sr,
     doPostForm h (loginURL h) (loginForm h "seeksalthash") w = (inr body, w1, t1) ->
     json_Unmarshal_saltResp body = inr sr ->
     Salt sr <> "" -> SaltWebUI sr <> "" ->
     let hash1 := pbkdf2Hex (pass h) (Salt sr) in
     let finalHash := pbkdf2Hex hash1 (SaltWebUI sr) in
     exists outcome w' calls,
       tryLogin h w = (outcome, w', calls) /\
       List.filter isHash calls
       = [EvHash (pass h) (Salt sr); EvHash hash1 (SaltWebUI sr)] /\
       In (EvPostForm (loginURL h) (loginForm h finalHash)) calls).
Proof.
  split; [|split].
  - intros secret salt. split; [apply pbkdf2Hex_unfold|]. split; [apply Key_length|].
    split; [apply pbkdf2Hex_decodes|].
    split; [apply pbkdf2Hex_length|apply pbkdf2Hex_lower].
  - now intros secret secret' salt salt' -> ->.
  - intros h w body w1 t1 sr Hchallenge Hsalts Hsalt Hsaltwebui hash1 finalHash.
    destruct (doPostForm h (loginURL h) (loginForm h finalHash) w1)
      as [[r2 w2] t2] eqn:Hsubmit.
    destruct (tryLogin_submits h w w1 t1 body _ Hchallenge Hsalts Hsalt Hsaltwebui
                w2 t2 r2 Hsubmit) as (outcome & w3 & t3 & Hrun & Ht3).
    exists outcome, w3. eexists. split; [exact Hrun|].
    rewrite (doPostForm_run _ _ _ _ _ _ _ Hchallenge),
      (doPostForm_run _ _ _ _ _ _ _ Hsubmit).
    split.
    + destruct Ht3 as [-> | ->]; reflexivity.
    + cbn. auto.
Qed.

End ClientFacts.

(** ** The claims on the scripted runtime *)

Lemma ListConnected_logout_after_fetch_witness :
  ListConnected (rt := Scripted.runtime) Scripted.client Scripted.session
  = ((Scripted.devices, None), [],
     (Scripted.upToSubmit
      ++ [ EvGet (menuURL Scripted.client); EvGet (hostTblURL Scripted.client);
           EvPostForm (logoutURL Scripted.client) ∅ ])%list)
  /\ ListConnected (rt := Scripted.runtime) Scripted.client Scripted.busySession
     = (([], Some (errorString "host table returned error: busy")), [],
        (Scripted.upToSubmit
         ++ [ EvGet (menuURL Scripted.client); EvGet (hostTblURL Scripted.client);
              EvPostForm (logoutURL Scripted.client) ∅ ])%list).
Proof.
  split.
  - refine (proj1 (ListConnected_logout_after_fetch (rt := Scripted.runtime)
      Scripted.client Scripted.session
      [inr "hosts phone laptop"; inl Scripted.timeout]
      (Scripted.upToSubmit ++ [EvGet (menuURL Scripted.client)])%list
      (Scripted.devices, None) [inl Scripted.timeout]
      [EvGet (hostTblURL Scripted.client)]
      (inl Scripted.timeout) [] [EvPostForm (logoutURL Scripted.client) ∅] _ _ _));
      reflexivity.
  - refine (proj1 (ListConnected_logout_after_fetch (rt := Scripted.runtime)
      Scripted.client Scripted.busySession
      [inr "hosts, error busy"; inr "bye"]
      (Scripted.upToSubmit ++ [EvGet (menuURL Scripted.client)])%list
      ([], Some (errorString "host table returned error: busy")) [inr "bye"]
      [EvGet (hostTblURL Scripted.client)]
      (inr "bye") [] [EvPostForm (logoutURL Scripted.client) ∅] _ _ _));
      reflexivity.
Defined.

Lemma ListConnected_login_failure_witness :
  ListConnected (rt := Scripted.runtime) Scripted.client
    [inr "salt abc xyz"; inr "error fail, message bad credentials"; inr "unused"]
  = (([], Some (errorString "login failed with provided credentials")),
     [inr "unused"], Scripted.upToSubmit).
Proof.
  refine (proj1 (ListConnected_login_failure (rt := Scripted.runtime)
    Scripted.client
    [inr "salt abc xyz"; inr "error fail, message bad credentials"; inr "unused"]
    (errorString "login failed with provided credentials")
    [inr "unused"] Scripted.upToSubmit _)).
  reflexivity.
Defined.

Lemma tryLogin_missing_challenge_data_witness :
  exists err,
    tryLogin (rt := Scripted.runtime) Scripted.client [inr "salt - xyz"; inr "error ok"]
    = (Some err, [inr "error ok"], [Scripted.challenge]) /\
    (err = errorString "no salt returned from router" \/
     err = errorString "no saltwebui returned from router").
Proof.
  refine (tryLogin_missing_challenge_data (rt := Scripted.runtime) Scripted.client
    [inr "salt - xyz"; inr "error ok"] "salt - xyz" [inr "error ok"]
    [Scripted.challenge] (mkSaltResp "ok" "" "xyz") _ _ _).
  - reflexivity.
  - reflexivity.
  - left. reflexivity.
Defined.

Lemma tryLogin_ignores_salt_error_field_witness :
  exists outcome w' rest,
    tryLogin (rt := Scripted.runtime) Scripted.client
      [inr "salt abc xyz, error fail"; inr "error ok"; inr "menu"]
    = (outcome, w', (Scripted.upToSubmit ++ rest)%list).
Proof.
  refine (tryLogin_ignores_salt_error_field (rt := Scripted.runtime) Scripted.client
    [inr "salt abc xyz, error fail"; inr "error ok"; inr "menu"]
    "salt abc xyz, error fail" [inr "error ok"; inr "menu"]
    [Scripted.challenge] "fail" "abc" "xyz" _ _ _ _);
    reflexivity || discriminate.
Defined.

Lemma tryLogin_reply_outcome_witness :
  exists err,
    (tryLogin (rt := Scripted.runtime) Scripted.client
       [inr "salt abc xyz"; inr "error fail, message MSG_LOGIN_150 please logout"]).1.1
    = Some err /\
    Error err = "An active session exists. Logout first. MSG_LOGIN_150 please logout" /\
    Substring "MSG_LOGIN_150 please logout" (Error err).
Proof.
  refine (proj1 (proj2 (tryLogin_reply_outcome (rt := Scripted.runtime) Scripted.client
    [inr "salt abc xyz"; inr "error fail, message MSG_LOGIN_150 please logout"]
    "salt abc xyz" [inr "error fail, message MSG_LOGIN_150 please logout"]
    [Scripted.challenge] (mkSaltResp "ok" "abc" "xyz")
    "error fail, message MSG_LOGIN_150 please logout" [] [Scripted.submit]
    (<["message" := anyString "MSG_LOGIN_150 please logout"]>
       {[ "error" := anyString "fail" ]})
    _ _ _ _ _ _)) _ "MSG_LOGIN_150 please logout" _ _);
    try reflexivity; try discriminate.
  exists "", " please logout". reflexivity.
Defined.

Lemma tryLogin_activates_session_witness :
  tryLogin (rt := Scripted.runtime) Scripted.client Scripted.session
  = (None, [inr "hosts phone laptop"; inl Scripted.timeout],
     (Scripted.upToSubmit ++ [EvGet (menuURL Scripted.client)])%list)
  /\ List.filter (requestTo (menuURL Scripted.client))
       (Scripted.upToSubmit ++ [EvGet (menuURL Scripted.client)])
     = [EvGet (menuURL Scripted.client)].
Proof.
  refine (tryLogin_activates_session (rt := Scripted.runtime) Scripted.client
    Scripted.session "salt abc xyz"
    [inr "error ok"; inl Scripted.timeout; inr "hosts phone laptop"; inl Scripted.timeout]
    [Scripted.challenge] (mkSaltResp "ok" "abc" "xyz") "error ok"
    [inl Scripted.timeout; inr "hosts phone laptop"; inl Scripted.timeout]
    [Scripted.submit] {[ "error" := anyString "ok" ]}
    (inl Scripted.timeout) [inr "hosts phone laptop"; inl Scripted.timeout]
    [EvGet (menuURL Scripted.client)] _ _ _ _ _ _ _ _);
    reflexivity || discriminate.
Defined.

Lemma tryLogin_undecodable_replies_witness :
  (tryLogin (rt := Scripted.runtime) Scripted.client
     [inr "salt abc xyz"; inr "<html>"]).1.1
  = Some (errorString "login failed with provided credentials")
  /\ (tryLogin (rt := Scripted.runtime) Scripted.client
        [inr "salt abc xyz"; inr "null"]).1.1
     = Some (errorString "login failed with provided credentials")
  /\ (tryLogin (rt := Scripted.runtime) Scripted.client [inr "<html>"]).1.1
     = Some (wrapError "failed parsing salt response: invalid character"
               (errorString "invalid character")).
Proof.
  pose proof (tryLogin_undecodable_replies (rt := Scripted.runtime) Scripted.client)
    as [Hreply Hsalt].
  split; [|split].
  - refine (Hreply [inr "salt abc xyz"; inr "<html>"] "salt abc xyz" [inr "<html>"]
      [Scripted.challenge] (mkSaltResp "ok" "abc" "xyz") "<html>" [] [Scripted.submit]
      _ _ _ _ _ _); try reflexivity; try discriminate.
    left. eexists. reflexivity.
  - refine (Hreply [inr "salt abc xyz"; inr "null"] "salt abc xyz" [inr "null"]
      [Scripted.challenge] (mkSaltResp "ok" "abc" "xyz") "null" [] [Scripted.submit]
      _ _ _ _ _ _); try reflexivity; try discriminate.
    right. reflexivity.
  - refine (Hsalt [inr "<html>"] "<html>" [] [Scripted.challenge]
      (errorString "invalid character") _ _); reflexivity.
Defined.

Lemma fetchHostTbl_maps_records_witness :
  exists devices,
    fetchHostTbl (rt := Scripted.runtime) Scripted.client [inr "hosts phone laptop"]
    = ((devices, None), [], [EvGet (hostTblURL Scripted.client)]) /\
    length devices = 2%nat /\
    (forall (i : nat) (e : hostEntry),
       [Scripted.phone; Scripted.laptop] !! i = Some e ->
       exists d, devices !! i = Some d /\
         MAC d = Physaddress e /\ IP d = Ipaddress e /\
         Hostname d = hostEntry_Hostname e /\
         (Active d = true <-> hostEntry_Active e = "true")) /\
    ([Scripted.phone; Scripted.laptop] = [] -> devices = []).
Proof.
  refine (fetchHostTbl_maps_records (rt := Scripted.runtime) Scripted.client
    [inr "hosts phone laptop"] "hosts phone laptop" []
    [EvGet (hostTblURL Scripted.client)]
    (mkHostTblResp "ok" "" (mkHostTblData [Scripted.phone; Scripted.laptop]) "t0")
    _ _ _); reflexivity.
Defined.

Lemma pbkdf2Hex_derives_key_witness :
  exists outcome w' calls,
    tryLogin (rt := Scripted.runtime) Scripted.client Scripted.session
    = (outcome, w', calls) /\
    List.filter isHash calls
    = [EvHash "secret" "abc"; EvHash (pbkdf2Hex "secret" "abc") "xyz"] /\
    In (EvPostForm (loginURL Scripted.client)
          (loginForm Scripted.client
             (pbkdf2Hex (pbkdf2Hex "secret" "abc") "xyz"))) calls.
Proof.
  refine (proj2 (proj2 (pbkdf2Hex_derives_key (rt := Scripted.runtime)))
    Scripted.client Scripted.session "salt abc xyz"
    [inr "error ok"; inl Scripted.timeout; inr "hosts phone laptop"; inl Scripted.timeout]
    [Scripted.challenge] (mkSaltResp "ok" "abc" "xyz") _ _ _ _);
    reflexivity || discriminate.
Defined.

(* ===================================================================== *)
(** * Further properties of the client, the table printer and the commands *)
(* ===================================================================== *)

Local Close Scope Z_scope.

(** ** Strings *)

Lemma strings_Repeat_S_byte (c : ascii) (n : nat) :
  strings_Repeat (String c "") (S n) = String c (strings_Repeat (String c "") n).
Proof. reflexivity. Qed.

Lemma append_nil_l (s : string) : "" ++ s = s.
Proof. reflexivity. Qed.

Lemma append_cons (a : ascii) (s t : string) : String a s ++ t = String a (s ++ t).
Proof. reflexivity. Qed.

Lemma append_length (s t : string) :
  String.length (s ++ t) = (String.length s + String.length t)%nat.
Proof.
  induction s as [|c s IH]; [reflexivity|].
  rewrite append_cons. cbn [String.length]. now rewrite IH.
Qed.

Lemma append_assoc (s t u : string) : (s ++ t) ++ u = s ++ t ++ u.
Proof.
  induction s as [|c s IH]; [reflexivity|].
  rewrite !append_cons. now rewrite IH.
Qed.

Lemma strings_Repeat_length (c : ascii) (n : nat) :
  String.length (strings_Repeat (String c "") n) = n.
Proof.
  induction n as [|n IH]; [reflexivity|].
  rewrite strings_Repeat_S_byte. cbn [String.length]. now rewrite IH.
Qed.

(** ** More about the client *)

Section ClientRuns.

Context {rt : Runtime}.

Implicit Types (h : HomeStationClient) (w : World) (t : list Event).

(** Every run of the login is one of the paths of [LoginRun]. *)
Lemma tryLogin_LoginRun h w outcome w' t :
  tryLogin h w = (outcome, w', t) -> LoginRun h w outcome w' t.
Proof.
  intros Hrun.
  destruct (doPostForm h (loginURL h) (loginForm h "seeksalthash") w)
    as [[r w1] t1] eqn:Hchallenge.
  pose proof (doPostForm_run _ _ _ _ _ _ _ Hchallenge) as Ht1.
  destruct r as [err|body].
  { rewrite (tryLogin_challenge_error _ _ _ _ _ Hchallenge) in Hrun.
    injection Hrun as <- <- <-. rewrite Ht1. eapply run_challenge_error; eassumption. }
  destruct (json_Unmarshal_saltResp body) as [err|sr] eqn:Hsalts.
  { rewrite (tryLogin_salt_unparsed _ _ _ _ _ _ Hchallenge Hsalts) in Hrun.
    injection Hrun as <- <- <-. rewrite Ht1. eapply run_salt_unparsed; eassumption. }
  destruct (String.eqb_spec (Salt sr) "") as [Hsalt|Hsalt].
  { rewrite (tryLogin_no_salt _ _ _ _ _ _ Hchallenge Hsalts Hsalt) in Hrun.
    injection Hrun as <- <- <-. rewrite Ht1.
    eapply run_missing_salt; [eassumption..|]. left. now split. }
  destruct (String.eqb_spec (SaltWebUI sr) "") as [Hweb|Hweb].
  { rewrite (tryLogin_no_saltwebui _ _ _ _ _ _ Hchallenge Hsalts Hsalt Hweb) in Hrun.
    injection Hrun as <- <- <-. rewrite Ht1.
    eapply run_missing_salt; [eassumption..|]. right. now repeat split. }
  destruct (doPostForm h (loginURL h)
              (loginForm h (pbkdf2Hex (pbkdf2Hex (pass h) (Salt sr)) (SaltWebUI sr))) w1)
    as [[r2 w2] t2] eqn:Hsubmit.
  pose proof (doPostForm_run _ _ _ _ _ _ _ Hsubmit) as Ht2.
  assert (Hreply : exists t3,
    tryLogin h w
    = (outcome, w',
       (t1 ++ [EvHash (pass h) (Salt sr);
               EvHash (pbkdf2Hex (pass h) (Salt sr)) (SaltWebUI sr)] ++ t2 ++ t3)%list)
    /\ ReplyRun h w2 r2 outcome w' t3).
  { destruct r2 as [err|resp2body].
    { exists []. rewrite Hrun.
      rewrite (tryLogin_submit_error _ _ _ _ _ _ Hchallenge Hsalts Hsalt Hweb _ _ _ Hsubmit)
        in Hrun.
      injection Hrun as <- <- <-. rewrite app_nil_r. split; [reflexivity|constructor]. }
    destruct (json_Unmarshal_map resp2body) as [err|jr] eqn:Hjr.
    { exists []. rewrite Hrun.
      rewrite (tryLogin_reply_unparsed _ _ _ _ _ _ Hchallenge Hsalts Hsalt Hweb _ _ _ _
                 Hsubmit Hjr) in Hrun.
      injection Hrun as <- <- <-. rewrite app_nil_r.
      split; [reflexivity|eapply reply_unparsed; eassumption]. }
    destruct (is_string_dec (jr !! "error") "ok") as [Hok|Hnok].
    { destruct (doGet h (menuURL h) w2) as [[rm w3] t3] eqn:Hmenu.
      exists [EvGet (menuURL h)]. rewrite Hrun.
      rewrite (tryLogin_reply_ok _ _ _ _ _ _ Hchallenge Hsalts Hsalt Hweb _ _ _ _ _ _ _
                 Hsubmit Hjr Hok Hmenu) in Hrun.
      injection Hrun as <- <- <-.
      split; [reflexivity|eapply reply_ok; eassumption]. }
    assert (Hmsg : (exists msg, jr !! "message" = Some (anyString msg) /\
                      strings_Contains msg "MSG_LOGIN_150" = true) \/
                   (forall msg, jr !! "message" = Some (anyString msg) ->
                      strings_Contains msg "MSG_LOGIN_150" = false)).
    { destruct (jr !! "message") as [[| | |msg| |]|];
        try (right; intros ? ?; congruence).
      destruct (strings_Contains msg "MSG_LOGIN_150") eqn:Ec.
      - left. now exists msg.
      - right. intros ? ?. congruence. }
    destruct Hmsg as [(msg & Hmsg & Hc)|Hmsg].
    - exists []. rewrite Hrun.
      rewrite (tryLogin_reply_blocked _ _ _ _ _ _ Hchallenge Hsalts Hsalt Hweb _ _ _ _ _
                 Hsubmit Hjr Hnok Hmsg Hc) in Hrun.
      injection Hrun as <- <- <-. rewrite app_nil_r.
      split; [reflexivity|eapply reply_blocked; eassumption].
    - exists []. rewrite Hrun.
      rewrite (tryLogin_reply_rejected _ _ _ _ _ _ Hchallenge Hsalts Hsalt Hweb _ _ _ _
                 Hsubmit Hjr Hnok Hmsg) in Hrun.
      injection Hrun as <- <- <-. rewrite app_nil_r.
      split; [reflexivity|eapply reply_rejected; eassumption]. }
  destruct Hreply as (t3 & Heq & Hreply).
  rewrite Hrun in Heq. injection Heq as ->. rewrite Ht1, Ht2.
  eapply run_submitted; eassumption.
Qed.

End ClientRuns.

(** *** The constructor *)

Lemma trimRightByte_split (s : string) (c : ascii) :
  exists n, s = trimRightByte s c ++ strings_Repeat (String c "") n.
Proof.
  induction s as [|a rest [n IH]].
  - now exists 0%nat.
  - cbn [trimRightByte]. destruct (trimRightByte rest c) as [|b r] eqn:E.
    + rewrite append_nil_l in IH. destruct (Ascii.eqb_spec a c) as [->|Hne].
      * exists (S n). now rewrite strings_Repeat_S_byte, append_nil_l, <- IH.
      * exists n. now rewrite append_cons, append_nil_l, <- IH.
    + exists n. now rewrite append_cons, <- IH.
Qed.

Lemma append_byte_nonempty (p : string) (c : ascii) : p ++ String c "" <> "".
Proof. now destruct p. Qed.

Lemma trimRightByte_end (s : string) (c : ascii) (p : string) :
  trimRightByte s c <> p ++ String c "".
Proof.
  revert p. induction s as [|a rest IH]; intros p; cbn [trimRightByte].
  - intros H. symmetry in H. now apply append_byte_nonempty in H.
  - destruct (trimRightByte rest c) as [|b r] eqn:E.
    + destruct (Ascii.eqb_spec a c) as [->|Hne].
      * intros H. symmetry in H. now apply append_byte_nonempty in H.
      * destruct p as [|a' p']; rewrite ?append_nil_l, ?append_cons.
        -- intros [= H1]. now destruct Hne.
        -- intros [= _ H2]. symmetry in H2. now apply append_byte_nonempty in H2.
    + destruct p as [|a' p']; rewrite ?append_nil_l, ?append_cons.
      * intros [= _ H2]. 
      * intros [= _ H2]. now apply (IH p').
Qed.

(** X1: the constructor never fails and keeps user and password; the
    base URL it stores is the one given without its trailing slashes,
    however many there are, and never ends in a slash. *)
Theorem NewHomeStationClient_trims (url usr pw : string) :
  exists n,
    let h := (NewHomeStationClient url usr pw).1 in
    (NewHomeStationClient url usr pw).2 = None /\
    user h = usr /\ pass h = pw /\
    url = baseURL h ++ strings_Repeat "/" n /\
    (forall p, baseURL h <> p ++ "/").
Proof.
  destruct (trimRightByte_split url "/") as [n Hn]. exists n. cbn.
  repeat split; [exact Hn|]. apply trimRightByte_end.
Qed.

Section ClientExtras.

Context {rt : Runtime}.

Implicit Types (h : HomeStationClient) (w : World) (t : list Event).

(** *** The request helpers *)

(** X2: when [http.NewRequest] fails, the helper returns its error
    without calling the transport: the world is as before. *)
Theorem request_not_sent_on_bad_url h u form w err :
  url_Parse_error u = Some err ->
  doPostForm h u form w = (inl err, w, [EvPostForm u form]) /\
  doGet h u w = (inl err, w, [EvGet u]).
Proof.
  intros Hurl. unfold doPostForm, doGet, http_NewRequest.
  rewrite !bind_unfold, Hurl. split; reflexivity.
Qed.

Lemma common_headers h (req : Request) :
  Header req = ∅ ->
  let req' := setCommonHeaders h req in
  Method req' = Method req /\ URL req' = URL req /\ Body req' = Body req /\
  Header req' !! "Accept" = Some ["*/*"] /\
  Header req' !! "Referer" = Some [baseURL h ++ "/"] /\
  Header req' !! "X-Requested-With" = Some ["XMLHttpRequest"] /\
  (exists agent, Header req' !! "User-Agent" = Some [agent]) /\
  Header req' !! "Content-Type" = None /\
  size (Header req') = 4%nat.
Proof.
  intros Hempty. unfold setCommonHeaders, Header_Set, Values_Set. cbn. rewrite Hempty.
  repeat split; try (eexists; reflexivity); vm_compute; reflexivity.
Qed.

(** X3: a request that is sent carries the method, the URL and exactly
    the common headers: Accept, User-Agent, X-Requested-With and a Referer
    that is the base URL followed by a slash.  A POST carries the encoded
    form as its body and the form content type besides; a GET has no body
    and no content type. *)
Theorem requests_carry_common_headers h u form w :
  url_Parse_error u = None ->
  exists post get,
    doPostForm h u form w
    = (let '(r, w') := client_Do post w in (r, w', [EvPostForm u form])) /\
    doGet h u w = (let '(r, w') := client_Do get w in (r, w', [EvGet u])) /\
    Method post = "POST" /\ URL post = u /\ Body post = Some (Values_Encode form) /\
    Method get = "GET" /\ URL get = u /\ Body get = None /\
    (forall req, req = post \/ req = get ->
       Header req !! "Accept" = Some ["*/*"] /\
       Header req !! "Referer" = Some [baseURL h ++ "/"] /\
       Header req !! "X-Requested-With" = Some ["XMLHttpRequest"] /\
       exists agent, Header req !! "User-Agent" = Some [agent]) /\
    Header post !! "Content-Type"
    = Some ["application/x-www-form-urlencoded; charset=UTF-8"] /\
    size (Header post) = 5%nat /\
    Header get !! "Content-Type" = None /\
    size (Header get) = 4%nat.
Proof.
  intros Hurl.
  pose proof (common_headers h (mkRequest "POST" u ∅ (Some (Values_Encode form))) eq_refl)
    as (_ & _ & _ & Ha & Hr & Hx & Hu & Hc & Hn).
  pose proof (common_headers h (mkRequest "GET" u ∅ None) eq_refl)
    as (_ & _ & _ & Ha' & Hr' & Hx' & Hu' & Hc' & Hn').
  exists (Header_Set "Content-Type" "application/x-www-form-urlencoded; charset=UTF-8"
            (setCommonHeaders h (mkRequest "POST" u ∅ (Some (Values_Encode form))))),
    (setCommonHeaders h (mkRequest "GET" u ∅ None)).
  split; [|split].
  - unfold doPostForm, http_NewRequest, roundTrip. rewrite bind_unfold, Hurl.
    cbn [emit]. cbv beta iota zeta.
    destruct (client_Do _ w) as [r w'] eqn:E. reflexivity.
  - unfold doGet, http_NewRequest, roundTrip. rewrite bind_unfold, Hurl.
    cbn [emit]. cbv beta iota zeta.
    destruct (client_Do _ w) as [r w'] eqn:E. reflexivity.
  - do 6 (split; [reflexivity|]).
    split; [|split; [|split; [|split]]].
    + intros req [-> | ->].
      * unfold Header_Set at 1 2 3 4. unfold Values_Set at 1 2 3 4. cbn [Header].
        rewrite !lookup_insert_ne by discriminate. auto.
      * auto.
    + unfold Header_Set at 1. unfold Values_Set at 1. cbn [Header].
      now rewrite lookup_insert_eq.
    + unfold Header_Set at 1. unfold Values_Set at 1. cbn [Header].
      rewrite map_size_insert_None by exact Hc. exact (f_equal S Hn).
    + exact Hc'.
    + exact Hn'.
Qed.

(** *** Transport failures in the login *)

(** X4: a transport error of the challenge request ends the login there:
    the error returned has the text failed requesting salt followed by the
    transport's text and unwraps to the transport's error; the challenge
    request is the only call, and ListConnected returns that error with no
    devices and makes no further call. *)
Theorem tryLogin_challenge_transport_error h w err w1 t1 :
  doPostForm h (loginURL h) (loginForm h "seeksalthash") w = (inl err, w1, t1) ->
  exists e,
    tryLogin h w = (Some e, w1, [EvPostForm (loginURL h) (loginForm h "seeksalthash")]) /\
    Error e = "failed requesting salt: " ++ Error err /\
    errors_Unwrap e = Some err /\
    ListConnected h w
    = (([], Some e), w1, [EvPostForm (loginURL h) (loginForm h "seeksalthash")]).
Proof.
  intros Hchallenge.
  pose proof (tryLogin_challenge_error _ _ _ _ _ Hchallenge) as Hrun.
  rewrite (doPostForm_run _ _ _ _ _ _ _ Hchallenge) in Hrun.
  eexists. split; [exact Hrun|]. split; [reflexivity|]. split; [reflexivity|].
  unfold ListConnected. rewrite bind_unfold, Hrun. reflexivity.
Qed.

(** X5: a transport error of the credential-submit request ends the
    login with an error whose text is failed posting hashed password
    followed by the transport's text and which unwraps to the transport's
    error; the session is not activated: the submit request is the last
    call. *)
Theorem tryLogin_submit_transport_error h w body w1 t1 sr err w2 t2 :
  doPostForm h (loginURL h) (loginForm h "seeksalthash") w = (inr body, w1, t1) ->
  json_Unmarshal_saltResp body = inr sr ->
  Salt sr <> "" -> SaltWebUI sr <> "" ->
  doPostForm h (loginURL h)
    (loginForm h (pbkdf2Hex (pbkdf2Hex (pass h) (Salt sr)) (SaltWebUI sr))) w1
  = (inl err, w2, t2) ->
  exists e,
    tryLogin h w
    = (Some e, w2,
       [ EvPostForm (loginURL h) (loginForm h "seeksalthash");
         EvHash (pass h) (Salt sr);
         EvHash (pbkdf2Hex (pass h) (Salt sr)) (SaltWebUI sr);
         EvPostForm (loginURL h)
           (loginForm h (pbkdf2Hex (pbkdf2Hex (pass h) (Salt sr)) (SaltWebUI sr))) ]) /\
    Error e = "failed posting hashed password: " ++ Error err /\
    errors_Unwrap e = Some err.
Proof.
  intros Hchallenge Hsalts Hsalt Hweb Hsubmit.
  pose proof (tryLogin_submit_error _ _ _ _ _ _ Hchallenge Hsalts Hsalt Hweb _ _ _ Hsubmit)
    as Hrun.
  rewrite (doPostForm_run _ _ _ _ _ _ _ Hchallenge),
    (doPostForm_run _ _ _ _ _ _ _ Hsubmit) in Hrun.
  eexists. split; [exact Hrun|]. split; reflexivity.
Qed.

(** *** What a successful login has done *)

(** X6: the login returns nil only after the whole handshake: the
    challenge was answered with a salt and a saltwebui, the reply to the
    credential-submit request decoded to an object whose error field is
    the string ok, and the run made exactly five calls: challenge, two
    hashes, submit, and the activation GET. *)
Theorem tryLogin_success_inversion h w w' t :
  tryLogin h w = (None, w', t) ->
  exists body sr w1 t1 resp2body w2 t2 jr rm t3,
    doPostForm h (loginURL h) (loginForm h "seeksalthash") w = (inr body, w1, t1) /\
    json_Unmarshal_saltResp body = inr sr /\
    Salt sr <> "" /\ SaltWebUI sr <> "" /\
    doPostForm h (loginURL h)
      (loginForm h (pbkdf2Hex (pbkdf2Hex (pass h) (Salt sr)) (SaltWebUI sr))) w1
    = (inr resp2body, w2, t2) /\
    json_Unmarshal_map resp2body = inr jr /\
    jr !! "error" = Some (anyString "ok") /\
    doGet h (menuURL h) w2 = (rm, w', t3) /\
    t = [ EvPostForm (loginURL h) (loginForm h "seeksalthash");
          EvHash (pass h) (Salt sr);
          EvHash (pbkdf2Hex (pass h) (Salt sr)) (SaltWebUI sr);
          EvPostForm (loginURL h)
            (loginForm h (pbkdf2Hex (pbkdf2Hex (pass h) (Salt sr)) (SaltWebUI sr)));
          EvGet (menuURL h) ].
Proof.
  intros Hrun. apply tryLogin_LoginRun in Hrun.
  inversion Hrun
    as [ | | | body sr w1 t1 r2 w2 t2 o w3 t3 Hc Hs Hsalt Hweb Hsub Hreply ]; subst.
  inversion Hreply as [ | | resp2body jr rm w3' t3' Hjr Hok Hmenu | | ]; subst.
  exists body, sr, w1, t1, resp2body, w2, t2, jr, rm, t3'.
  repeat (split; [assumption|]). reflexivity.
Qed.

(** *** The calls of a whole run *)

Lemma LoginRun_calls h w outcome w' t :
  LoginRun h w outcome w' t ->
  let challenge := EvPostForm (loginURL h) (loginForm h "seeksalthash") in
  (outcome <> None /\ t = [challenge]) \/
  exists p1 s1 p2 s2,
    let upToSubmit :=
      [ challenge; EvHash p1 s1; EvHash p2 s2;
        EvPostForm (loginURL h) (loginForm h (pbkdf2Hex p2 s2)) ] in
    (outcome <> None /\ t = upToSubmit) \/
    (outcome = None /\ t = (upToSubmit ++ [EvGet (menuURL h)])%list).
Proof.
  intros Hrun challenge.
  inversion Hrun
    as [ | | ? ? ? ? ? ? ? Hm | body sr w1 t1 r2 w2 t2 o w3 t3 Hc Hs Hsalt Hweb Hsub Hreply ];
    subst; try (left; split; [discriminate|reflexivity]).
  right. exists (pass h), (Salt sr), (pbkdf2Hex (pass h) (Salt sr)), (SaltWebUI sr).
  inversion Hreply; subst;
    try (left; split; [discriminate|rewrite app_nil_r; reflexivity]).
  right. split; reflexivity.
Qed.

Lemma ListConnected_runs h w r w' t :
  ListConnected h w = (r, w', t) ->
  (exists err, LoginRun h w (Some err) w' t /\ r = ([], Some err)) \/
  (exists w1 t1 w2 lo,
     LoginRun h w None w1 t1 /\
     fetchHostTbl h w1 = (r, w2, [EvGet (hostTblURL h)]) /\
     doPostForm h (logoutURL h) ∅ w2 = (lo, w', [EvPostForm (logoutURL h) ∅]) /\
     t = (t1 ++ [EvGet (hostTblURL h); EvPostForm (logoutURL h) ∅])%list).
Proof.
  unfold ListConnected. rewrite bind_unfold.
  destruct (tryLogin h w) as [[[err|] w1] t1] eqn:Hlogin;
    apply tryLogin_LoginRun in Hlogin.
  - unfold ret. rewrite app_nil_r. intros [= <- <- <-]. left. now exists err.
  - rewrite bind_unfold.
    destruct (fetchHostTbl h w1) as [[r' w2] t2] eqn:Hfetch.
    pose proof (fetchHostTbl_run _ _ _ _ _ Hfetch) as ->.
    rewrite bind_unfold.
    destruct (doPostForm h (logoutURL h) ∅ w2) as [[lo w3] t3] eqn:Hlogout.
    pose proof (doPostForm_run _ _ _ _ _ _ _ Hlogout) as ->.
    rewrite (logout_run _ _ _ _ _ Hlogout). unfold ret.
    intros [= <- <- <-]. right. exists w1, t1, w2, lo.
    repeat (split; [assumption|]). reflexivity.
Qed.

Ltac count_calls :=
  unfold loginURL, menuURL, hostTblURL, logoutURL;
  cbn [List.filter app requestTo isRequest isHash];
  rewrite ?eqb_append_l;
  cbn [String.eqb Ascii.eqb Bool.eqb List.length orb andb].

(** X7: no run of ListConnected repeats a request: it makes at most two
    requests to the login endpoint, at most one to each of the menu, the
    host-table and the logout endpoint, no request to any other URL, and
    at most two calls of the hasher. *)
Theorem ListConnected_request_bound h w r w' t :
  ListConnected h w = (r, w', t) ->
  (List.length (List.filter (requestTo (loginURL h)) t) <= 2)%nat /\
  (List.length (List.filter (requestTo (menuURL h)) t) <= 1)%nat /\
  (List.length (List.filter (requestTo (hostTblURL h)) t) <= 1)%nat /\
  (List.length (List.filter (requestTo (logoutURL h)) t) <= 1)%nat /\
  (List.length (List.filter isRequest t) <= 5)%nat /\
  (List.length (List.filter isHash t) <= 2)%nat /\
  Forall (fun ev =>
            isRequest ev = true ->
            (requestTo (loginURL h) ev || requestTo (menuURL h) ev
             || requestTo (hostTblURL h) ev || requestTo (logoutURL h) ev)%bool = true) t.
Proof.
  intros Hrun. apply ListConnected_runs in Hrun.
  destruct Hrun as [(err & Hlogin & _)|(w1 & t1 & w2 & lo & Hlogin & _ & _ & ->)];
    apply LoginRun_calls in Hlogin; cbv zeta in Hlogin;
    destruct Hlogin as [[Ho ->]|(p1 & s1 & p2 & s2 & [[Ho ->]|[Ho ->]])];
    try discriminate; try (now destruct Ho);
    (repeat split; [count_calls; lia..|]);
    cbn [app]; repeat first [apply List.Forall_nil | apply List.Forall_cons];
    unfold loginURL, menuURL, hostTblURL, logoutURL;
    cbn [requestTo isRequest]; rewrite ?eqb_append_l; intros Hreq;
    reflexivity || discriminate Hreq.
Qed.

Lemma ListConnected_forms h w r w' t :
  ListConnected h w = (r, w', t) ->
  Forall (fun ev =>
            match ev with
            | EvPostForm _ form =>
                form = ∅ \/ form = loginForm h "seeksalthash" \/
                exists p s, form = loginForm h (pbkdf2Hex p s)
            | _ => True
            end) t.
Proof.
  intros Hrun. apply ListConnected_runs in Hrun.
  destruct Hrun as [(err & Hlogin & _)|(w1 & t1 & w2 & lo & Hlogin & _ & _ & ->)];
    apply LoginRun_calls in Hlogin; cbv zeta in Hlogin;
    destruct Hlogin as [[Ho ->]|(p1 & s1 & p2 & s2 & [[Ho ->]|[Ho ->]])];
    cbn [app]; repeat first [apply List.Forall_nil | apply List.Forall_cons];
    first [ exact I
          | left; reflexivity
          | right; left; reflexivity
          | right; right; exists p2, s2; reflexivity ].
Qed.

Lemma Some_singleton_inj {A : Type} (a b : A) : Some [a] = Some [b] -> a = b.
Proof. intros H. now injection H. Qed.

(** X8: the password does not leave the client in clear.  Unless it is
    the sentinel seeksalthash itself or has the length of a hash, 32, no
    form posted by any run of ListConnected has it as its password
    field, and every form that has a username field has the client's
    user. *)
Theorem ListConnected_never_posts_password h w r w' t :
  pass h <> "seeksalthash" ->
  String.length (pass h) <> 32%nat ->
  ListConnected h w = (r, w', t) ->
  forall u form,
    In (EvPostForm u form) t ->
    form !! "password" <> Some [pass h] /\
    (form !! "username" = None \/ form !! "username" = Some [user h]).
Proof.
  intros Hsentinel Hlength Hrun u form Hin.
  pose proof (ListConnected_forms _ _ _ _ _ Hrun) as Hforms.
  rewrite List.Forall_forall in Hforms. specialize (Hforms _ Hin).
  cbv beta iota in Hforms. rename Hforms into Hform.
  unfold loginForm, Values_Set in Hform.
  destruct Hform as [-> | [-> | (p & s & ->)]].
  - rewrite !lookup_empty. split; [discriminate|now left].
  - rewrite lookup_insert_eq, lookup_insert_ne, lookup_insert_eq by discriminate.
    split; [|now right]. intros H%Some_singleton_inj. apply Hsentinel. now symmetry.
  - rewrite lookup_insert_eq, lookup_insert_ne, lookup_insert_eq by discriminate.
    split; [|now right]. intros H%Some_singleton_inj. apply Hlength. rewrite <- H.
    apply pbkdf2Hex_length.
Qed.

(** *** Failures of the host-table fetch *)

(** X9: a host table whose error field is not ok is refused: the error
    returned has the text host table returned error followed by that
    field, and no device is returned, whatever the table lists. *)
Theorem fetchHostTbl_status_error h w body w1 t r :
  doGet h (hostTblURL h) w = (inr body, w1, t) ->
  json_Unmarshal_hostTblResp body = inr r ->
  hostTblResp_Error r <> "ok" ->
  fetchHostTbl h w
  = (([], Some (errorString ("host table returned error: " ++ hostTblResp_Error r))),
     w1, [EvGet (hostTblURL h)]).
Proof.
  intros Hget Hdecode Hstatus%String.eqb_neq.
  unfold fetchHostTbl. rewrite bind_unfold, Hget. cbv beta iota zeta.
  rewrite Hdecode, Hstatus. cbn [negb]. unfold ret.
  rewrite (doGet_run _ _ _ _ _ _ Hget). reflexivity.
Qed.

(** X10: a transport error of the host-table request, and a body that
    does not decode, each give an error that wraps the cause under a text
    naming the step, with no devices. *)
Theorem fetchHostTbl_wraps_failures h w :
  (forall err w1 t,
     doGet h (hostTblURL h) w = (inl err, w1, t) ->
     exists e,
       fetchHostTbl h w = (([], Some e), w1, [EvGet (hostTblURL h)]) /\
       Error e = "failed fetching host table: " ++ Error err /\
       errors_Unwrap e = Some err) /\
  (forall body err w1 t,
     doGet h (hostTblURL h) w = (inr body, w1, t) ->
     json_Unmarshal_hostTblResp body = inl err ->
     exists e,
       fetchHostTbl h w = (([], Some e), w1, [EvGet (hostTblURL h)]) /\
       Error e = "failed parsing host table JSON: " ++ Error err /\
       errors_Unwrap e = Some err).
Proof.
  split.
  - intros err w1 t Hget. eexists. split.
    { unfold fetchHostTbl. rewrite bind_unfold, Hget. cbv beta iota zeta. unfold ret.
      rewrite (doGet_run _ _ _ _ _ _ Hget). reflexivity. }
    split; reflexivity.
  - intros body err w1 t Hget Hdecode. eexists. split.
    { unfold fetchHostTbl. rewrite bind_unfold, Hget. cbv beta iota zeta.
      rewrite Hdecode. unfold ret.
      rewrite (doGet_run _ _ _ _ _ _ Hget). reflexivity. }
    split; reflexivity.
Qed.

Lemma fetchHostTbl_error_no_devices h w devices err w' t :
  fetchHostTbl h w = ((devices, Some err), w', t) -> devices = [].
Proof.
  unfold fetchHostTbl. rewrite bind_unfold.
  destruct (doGet h (hostTblURL h) w) as [[[e|body] w1] t1]; cbv beta iota zeta.
  - unfold ret. now intros [= <- _ _ _].
  - destruct (json_Unmarshal_hostTblResp body) as [e|r].
    + unfold ret. now intros [= <- _ _ _].
    + destruct (negb _); unfold ret; [now intros [= <- _ _ _]|discriminate].
Qed.

(** X11: ListConnected has no partial success: whenever it returns an
    error it returns no device, be the error the login's or the fetch's. *)
Theorem ListConnected_error_no_devices h w devices err w' t :
  ListConnected h w = ((devices, Some err), w', t) -> devices = [].
Proof.
  intros Hrun. apply ListConnected_runs in Hrun.
  destruct Hrun as [(e & _ & Hr)|(w1 & t1 & w2 & lo & _ & Hfetch & _)].
  - now injection Hr.
  - now apply fetchHostTbl_error_no_devices in Hfetch.
Qed.

End ClientExtras.

(** ** More about the MAC canonicaliser *)

Lemma isCanonical_lowerByte (c : ascii) :
  isSeparator c = false -> isCanonical (lowerByte c) = true.
Proof. destruct c as [[] [] [] [] [] [] [] []]; intros H; try discriminate H; reflexivity. Qed.

Lemma lowerByte_canonical (c : ascii) : isCanonical c = true -> lowerByte c = c.
Proof. destruct c as [[] [] [] [] [] [] [] []]; intros H; try discriminate H; reflexivity. Qed.

Lemma lowerByte_fixed_canonical (c : ascii) :
  isSeparator c = false -> lowerByte c = c -> isCanonical c = true.
Proof.
  destruct c as [[] [] [] [] [] [] [] []]; intros H1 H2;
    try discriminate H1; try discriminate H2; reflexivity.
Qed.

(** X12: the canonical form holds no separator and no upper-case ASCII
    letter, whatever the input. *)
Theorem normalizeMAC_canonical (mac : string) :
  allBytes isCanonical (normalizeMAC mac) = true.
Proof.
  induction mac as [|c rest IH]; [reflexivity|].
  rewrite normalizeMAC_cons. destruct (isSeparator c) eqn:Hsep; [exact IH|].
  cbn [allBytes]. now rewrite isCanonical_lowerByte, IH.
Qed.

(** X13: normalisation removes the separators and nothing else: the
    length of the result is the length of the input less the number of
    separators in it. *)
Theorem normalizeMAC_length (mac : string) :
  (String.length (normalizeMAC mac) + countBytes isSeparator mac)%nat
  = String.length mac.
Proof.
  induction mac as [|c rest IH]; [reflexivity|].
  rewrite normalizeMAC_cons. cbn [countBytes String.length].
  destruct (isSeparator c); cbn [String.length]; lia.
Qed.

Lemma normalizeMAC_length_le (mac : string) :
  (String.length (normalizeMAC mac) <= String.length mac)%nat.
Proof.
  induction mac as [|c rest IH]; [reflexivity|].
  rewrite normalizeMAC_cons. destruct (isSeparator c); cbn [String.length]; lia.
Qed.

(** X14: the strings normalisation leaves unchanged are exactly those in
    canonical form. *)
Theorem normalizeMAC_fixed_points (mac : string) :
  normalizeMAC mac = mac <-> allBytes isCanonical mac = true.
Proof.
  induction mac as [|c rest IH]; [now split|].
  rewrite normalizeMAC_cons. cbn [allBytes]. rewrite andb_true_iff, <- IH.
  destruct (isSeparator c) eqn:Hsep.
  - split.
    + intros H. pose proof (normalizeMAC_length_le rest) as Hle.
      rewrite H in Hle. cbn [String.length] in Hle. lia.
    + intros [H _]. unfold isCanonical in H. rewrite Hsep in H. discriminate H.
  - split.
    + intros [= Hc Hrest]. split; [now apply lowerByte_fixed_canonical|exact Hrest].
    + intros [Hc Hrest]. now rewrite (lowerByte_canonical c Hc), Hrest.
Qed.

(** X15: MatchMAC is transitive, so with reflexivity and symmetry an
    equivalence, and it is kept by concatenation: matching parts make
    matching wholes. *)
Theorem MatchMAC_transitive_congruent (a b c a' b' : string) :
  MatchMAC a b = true ->
  (MatchMAC b c = true -> MatchMAC a c = true) /\
  (MatchMAC a' b' = true -> MatchMAC (a ++ a') (b ++ b') = true).
Proof.
  unfold MatchMAC. intros Hab%String.eqb_eq. split.
  - intros Hbc%String.eqb_eq. apply String.eqb_eq. congruence.
  - intros Hab'%String.eqb_eq. apply String.eqb_eq.
    rewrite !normalizeMAC_app. congruence.
Qed.

(** X16: the canonical form is empty exactly for the strings made of
    separators only; MatchMAC checks no MAC syntax, so every such string
    matches the empty string. *)
Theorem normalizeMAC_empty (mac : string) :
  (normalizeMAC mac = "" <-> allBytes isSeparator mac = true) /\
  (allBytes isSeparator mac = true -> MatchMAC mac "" = true).
Proof.
  assert (H : normalizeMAC mac = "" <-> allBytes isSeparator mac = true).
  { induction mac as [|c rest IH]; [now split|].
    rewrite normalizeMAC_cons. cbn [allBytes].
    destruct (isSeparator c); [exact IH|]. split; discriminate. }
  split; [exact H|]. intros Hsep%H. unfold MatchMAC. now rewrite Hsep.
Qed.

Example table_with_headers :
  PrintStructTable fmt_Sprint TableTests.two (Some ["Name"; "IP Address"; "Active"])
  = ("Name   | IP Address   | Active" ++ newline
     ++ "------------------------------" ++ newline
     ++ "Phone  | 192.168.1.10 | true  " ++ newline
     ++ "Laptop | 192.168.1.20 | false " ++ newline, None).
Proof. vm_compute. reflexivity. Qed.

Example table_header_mismatch :
  PrintStructTable fmt_Sprint TableTests.two (Some ["Name"; "IP"])
  = ("", Some (errorString "headers length (2) must match number of exported fields (3)")).
Proof. vm_compute. reflexivity. Qed.

Example padRight_tests :
  padRight "abc" 5 = "abc  " /\ padRight "abc" 3 = "abc" /\
  padRight "abc" 2 = "abc" /\ padRight "" 3 = "   ".
Proof. repeat split. Qed.

(** ** The table printer *)

Lemma padRight_spec (s : string) (width : nat) :
  padRight s width = s ++ strings_Repeat " " (width - String.length s).
Proof.
  unfold padRight. destruct (Nat.leb_spec width (String.length s)) as [Hle|Hlt].
  - replace (width - String.length s)%nat with 0%nat by lia.
    cbn [strings_Repeat]. now rewrite append_empty_r.
  - reflexivity.
Qed.

Lemma padRight_length (s : string) (width : nat) :
  String.length (padRight s width) = Nat.max (String.length s) width.
Proof.
  rewrite padRight_spec, append_length, strings_Repeat_length. lia.
Qed.

(** X17: padRight never cuts: the result is the text followed by spaces,
    as many as the text is short of the width and none when it is not;
    its length is the larger of the text's length and the width. *)
Theorem padRight_pads (s : string) (width : nat) :
  padRight s width = s ++ strings_Repeat " " (width - String.length s) /\
  String.length (padRight s width) = Nat.max (String.length s) width /\
  ((width <= String.length s)%nat -> padRight s width = s).
Proof.
  split; [apply padRight_spec|]. split; [apply padRight_length|].
  intros Hle. unfold padRight. now rewrite (proj2 (Nat.leb_le _ _) Hle).
Qed.

Section TableFacts.

Variable V : Type.
Variable fmt_Sprint : V -> string.

Lemma fillRow_spec (Field : nat -> V) (fieldIndices : list nat) :
  forall (j : nat) (pre suf : list string) (cpre csuf : list nat),
    List.length pre = j -> List.length cpre = j ->
    List.length suf = List.length fieldIndices ->
    List.length csuf = List.length fieldIndices ->
    fillRow fmt_Sprint Field j fieldIndices (pre ++ suf)%list (cpre ++ csuf)%list
    = ((pre ++ List.map (fun i => fmt_Sprint (Field i)) fieldIndices)%list,
       (cpre ++ raise csuf (List.map (fun i => fmt_Sprint (Field i)) fieldIndices))%list).
Proof.
  induction fieldIndices as [|idx rest IH]; intros j pre suf cpre csuf Hp Hc Hs Hcs.
  - destruct suf; [|discriminate]. destruct csuf; [|discriminate]. reflexivity.
  - destruct suf as [|s0 suf]; [discriminate|]. destruct csuf as [|c0 csuf]; [discriminate|].
    cbn [fillRow]. cbv zeta.
    assert (Hrow : <[j := fmt_Sprint (Field idx)]> (pre ++ s0 :: suf)%list
                   = ((pre ++ [fmt_Sprint (Field idx)]) ++ suf)%list).
    { rewrite insert_app_r_alt by lia. rewrite Hp, Nat.sub_diag.
      cbn. now rewrite <- app_assoc. }
    assert (Hnth : nth j (cpre ++ c0 :: csuf)%list 0%nat = c0).
    { rewrite List.app_nth2 by lia. now rewrite Hc, Nat.sub_diag. }
    assert (Hcw : (if (nth j (cpre ++ c0 :: csuf)%list 0 <? String.length (fmt_Sprint (Field idx)))%nat
                   then <[j := String.length (fmt_Sprint (Field idx))]> (cpre ++ c0 :: csuf)%list
                   else (cpre ++ c0 :: csuf)%list)
                  = ((cpre ++ [Nat.max c0 (String.length (fmt_Sprint (Field idx)))])
                       ++ csuf)%list).
    { rewrite Hnth. rewrite <- app_assoc. cbn [app].
      destruct (Nat.ltb_spec c0 (String.length (fmt_Sprint (Field idx)))) as [Hlt|Hge].
      - rewrite insert_app_r_alt by lia. rewrite Hc, Nat.sub_diag. cbn.
        now rewrite Nat.max_r by lia.
      - now rewrite Nat.max_l by lia. }
    rewrite Hrow, Hcw.
    rewrite IH; [|rewrite length_app; cbn; lia..| |]; [|cbn in *; lia..].
    rewrite <- !app_assoc. reflexivity.
Qed.

Lemma raise_length (colWidths : list nat) (row : list string) :
  List.length row = List.length colWidths ->
  List.length (raise colWidths row) = List.length colWidths.
Proof.
  intros H. unfold raise. rewrite length_zip_with, List.length_map. lia.
Qed.

Lemma raise_nil_l (row : list string) : raise [] row = [].
Proof. reflexivity. Qed.

Lemma raise_cons (c : nat) (colWidths : list nat) (s : string) (row : list string) :
  raise (c :: colWidths) (s :: row) = Nat.max c (String.length s) :: raise colWidths row.
Proof. reflexivity. Qed.

Lemma raise_blank (colWidths : list nat) :
  raise colWidths (repeat "" (List.length colWidths)) = colWidths.
Proof.
  induction colWidths as [|c cw IH]; [reflexivity|].
  cbn [List.length repeat]. rewrite raise_cons, IH. cbn [String.length].
  now rewrite Nat.max_0_r.
Qed.

Lemma cellsOf_length (fieldIndices : list nat) (ev : Elem V) :
  List.length (cellsOf fmt_Sprint fieldIndices ev) = List.length fieldIndices.
Proof.
  destruct ev as [Field|[Field|]]; cbn [cellsOf];
    now rewrite ?List.length_map, ?List.repeat_length.
Qed.

Lemma fillRow_from_start (Field : nat -> V) (fieldIndices : list nat) (colWidths : list nat) :
  List.length colWidths = List.length fieldIndices ->
  fillRow fmt_Sprint Field 0 fieldIndices (repeat "" (List.length fieldIndices)) colWidths
  = (List.map (fun i => fmt_Sprint (Field i)) fieldIndices,
     raise colWidths (List.map (fun i => fmt_Sprint (Field i)) fieldIndices)).
Proof.
  intros Hlen.
  apply (fillRow_spec Field fieldIndices 0 [] (repeat "" (List.length fieldIndices))
           [] colWidths); try reflexivity; [apply List.repeat_length|exact Hlen].
Qed.

Lemma gatherRow_spec (fieldIndices : list nat) (rows : list (list string))
    (colWidths : list nat) (ev : Elem V) :
  List.length colWidths = List.length fieldIndices ->
  gatherRow fmt_Sprint fieldIndices (List.length fieldIndices) (rows, colWidths) ev
  = ((rows ++ [cellsOf fmt_Sprint fieldIndices ev])%list,
     raise colWidths (cellsOf fmt_Sprint fieldIndices ev)).
Proof.
  intros Hlen. unfold gatherRow.
  destruct ev as [Field|[Field|]]; cbn [cellsOf];
    rewrite ?(fillRow_from_start _ _ _ Hlen); try reflexivity.
  now rewrite <- Hlen, raise_blank.
Qed.

Lemma gather_all (fieldIndices : list nat) (elems : list (Elem V)) :
  forall (rows : list (list string)) (colWidths : list nat),
    List.length colWidths = List.length fieldIndices ->
    fold_left (gatherRow fmt_Sprint fieldIndices (List.length fieldIndices)) elems
      (rows, colWidths)
    = ((rows ++ List.map (cellsOf fmt_Sprint fieldIndices) elems)%list,
       fold_left raise (List.map (cellsOf fmt_Sprint fieldIndices) elems) colWidths).
Proof.
  induction elems as [|ev elems IH]; intros rows colWidths Hlen; cbn [fold_left List.map].
  - now rewrite app_nil_r.
  - rewrite gatherRow_spec by exact Hlen.
    rewrite IH by (rewrite raise_length; [exact Hlen|rewrite cellsOf_length; lia]).
    now rewrite <- app_assoc.
Qed.

End TableFacts.

Lemma headerWidths_spec (headers : list string) :
  forall (i : nat) (cpre csuf : list nat),
    List.length cpre = i -> List.length csuf = List.length headers ->
    headerWidths i headers (cpre ++ csuf)%list
    = (cpre ++ List.map String.length headers)%list.
Proof.
  induction headers as [|hd rest IH]; intros i cpre csuf Hp Hs.
  - destruct csuf; [|discriminate]. reflexivity.
  - destruct csuf as [|c0 csuf]; [discriminate|]. cbn [headerWidths List.map].
    rewrite insert_app_r_alt by lia. rewrite Hp, Nat.sub_diag.
    change (<[0%nat := String.length hd]> (c0 :: csuf)) with (String.length hd :: csuf).
    change (cpre ++ String.length hd :: csuf)%list
      with (cpre ++ [String.length hd] ++ csuf)%list.
    rewrite app_assoc, IH; [|rewrite length_app; cbn; lia|cbn in Hs; lia].
    now rewrite <- app_assoc.
Qed.

Lemma raise_zero (row : list string) :
  raise (repeat 0%nat (List.length row)) row = List.map String.length row.
Proof.
  induction row as [|s row IH]; [reflexivity|].
  cbn [List.length repeat List.map]. now rewrite raise_cons, IH.
Qed.

Lemma headerWidths_start (headers : list string) :
  headerWidths 0 headers (repeat 0%nat (List.length headers))
  = raise (repeat 0%nat (List.length headers)) headers.
Proof.
  rewrite raise_zero.
  apply (headerWidths_spec headers 0 [] (repeat 0%nat (List.length headers)));
    [reflexivity|apply List.repeat_length].
Qed.

(** *** The widths are the column maxima *)

Lemma columnWidth_cons (row : list string) (table : list (list string)) (j : nat) :
  columnWidth (row :: table) j
  = Nat.max (String.length (nth j row "")) (columnWidth table j).
Proof. reflexivity. Qed.

Lemma nth_raise (colWidths : list nat) (row : list string) (j : nat) :
  List.length row = List.length colWidths ->
  nth j (raise colWidths row) 0%nat
  = Nat.max (nth j colWidths 0%nat) (String.length (nth j row "")).
Proof.
  revert row j. induction colWidths as [|c cw IH]; intros row j Hlen.
  - destruct row; [|discriminate]. now destruct j.
  - destruct row as [|s row]; [discriminate|]. rewrite raise_cons.
    destruct j as [|j]; [reflexivity|]. cbn [nth]. apply IH. cbn in Hlen. lia.
Qed.

Lemma nth_fold_raise (table : list (list string)) :
  forall (colWidths : list nat) (j : nat),
    Forall (fun row => List.length row = List.length colWidths) table ->
    nth j (fold_left raise table colWidths) 0%nat
    = Nat.max (nth j colWidths 0%nat) (columnWidth table j) /\
    List.length (fold_left raise table colWidths) = List.length colWidths.
Proof.
  induction table as [|row table IH]; intros colWidths j Hrows; cbn [fold_left].
  - split; [|reflexivity]. unfold columnWidth. cbn. lia.
  - apply List.Forall_cons_iff in Hrows as [Hrow Hrows].
    assert (Hlen : List.length (raise colWidths row) = List.length colWidths)
      by now apply raise_length.
    destruct (IH (raise colWidths row) j) as [Hnth Hl].
    { eapply List.Forall_impl; [|exact Hrows]. intros r Hr. cbn beta in *. lia. }
    split; [|lia]. rewrite Hnth, nth_raise by exact Hrow.
    rewrite columnWidth_cons. lia.
Qed.

Lemma list_eq_nth (l l' : list nat) :
  List.length l = List.length l' ->
  (forall j, (j < List.length l)%nat -> nth j l 0%nat = nth j l' 0%nat) ->
  l = l'.
Proof.
  intros Hlen Hnth. apply (List.nth_ext l l' 0%nat 0%nat Hlen). exact Hnth.
Qed.

(** The widths the loops reach from zero are the column maxima. *)
Lemma fold_raise_maxima (table : list (list string)) (n : nat) :
  Forall (fun row => List.length row = n) table ->
  fold_left raise table (repeat 0%nat n)
  = List.map (columnWidth table) (seq 0 n).
Proof.
  intros Hrows.
  assert (Hrows' : Forall (fun row => List.length row = List.length (repeat 0%nat n)) table).
  { eapply List.Forall_impl; [|exact Hrows]. intros r Hr. cbn beta.
    now rewrite List.repeat_length. }
  apply list_eq_nth.
  - rewrite (proj2 (nth_fold_raise table _ 0%nat Hrows')).
    now rewrite List.repeat_length, List.length_map, List.length_seq.
  - intros j Hj.
    rewrite (proj2 (nth_fold_raise table _ 0%nat Hrows')), List.repeat_length in Hj.
    rewrite (proj1 (nth_fold_raise table _ j Hrows')).
    rewrite (List.nth_indep (List.map (columnWidth table) (seq 0 n)) 0%nat
               (columnWidth table 0%nat))
      by now rewrite List.length_map, List.length_seq.
    rewrite List.map_nth, List.seq_nth by exact Hj.
    rewrite List.nth_repeat. cbn. reflexivity.
Qed.


(** *** The lines *)

Lemma zip_with_padRight_nil (row : list string) (widths : list nat) :
  (List.length row <= List.length widths)%nat ->
  zip_with padRight row widths = [] -> row = [].
Proof.
  destruct row as [|c row]; [reflexivity|]. destruct widths; [cbn; lia|discriminate].
Qed.

Lemma printCells_spec (row : list string) :
  forall (i : nat) (wpre ws : list nat),
    List.length wpre = i -> (List.length row <= List.length ws)%nat ->
    printCells i row (wpre ++ ws)%list
    = match row with
      | [] => ""
      | _ => (if (0 <? i)%nat then " | " else "") ++ tableLine ws row
      end.
Proof.
  induction row as [|c rest IH]; intros i wpre ws Hp Hlen; [reflexivity|].
  destruct ws as [|w0 ws]; [cbn in Hlen; lia|].
  cbn [printCells].
  rewrite List.app_nth2 by lia. rewrite Hp, Nat.sub_diag. cbn [nth].
  change (wpre ++ w0 :: ws)%list with (wpre ++ [w0] ++ ws)%list.
  rewrite app_assoc, (IH (S i) (wpre ++ [w0])%list ws);
    [|rewrite length_app; cbn; lia|cbn in Hlen; lia].
  f_equal. unfold tableLine. cbn [zip_with strings_Join].
  destruct rest as [|c' rest].
  - cbn [zip_with]. now rewrite append_empty_r.
  - destruct ws as [|w1 ws]; [cbn in Hlen; lia|]. reflexivity.
Qed.

Lemma printCells_tableLine (row : list string) (widths : list nat) :
  (List.length row <= List.length widths)%nat ->
  printCells 0 row widths = tableLine widths row.
Proof.
  intros Hlen. pose proof (printCells_spec row 0 [] widths eq_refl Hlen) as H.
  cbn [app] in H. rewrite H. now destruct row.
Qed.

Lemma print_rows (widths : list nat) (rows : list (list string)) :
  forall out : string,
    fold_left (fun out row => out ++ printCells 0 row widths ++ newline) rows out
    = out ++ concatStrings (List.map (fun row => printCells 0 row widths ++ newline) rows).
Proof.
  induction rows as [|row rows IH]; intros out; cbn [fold_left List.map concatStrings fold_right].
  - now rewrite append_empty_r.
  - rewrite IH. fold (concatStrings (List.map (fun row => printCells 0 row widths ++ newline) rows)).
    now rewrite !append_assoc.
Qed.

Lemma sumWidths_from (ws : list nat) :
  forall (i : nat) (wpre : list nat) (acc : nat),
    List.length wpre = S i ->
    fold_left
      (fun totalWidth k =>
         ((if (0 <? k)%nat then totalWidth + 3 else totalWidth)
          + nth k (wpre ++ ws)%list 0)%nat)
      (seq (S i) (List.length ws)) acc
    = (acc + list_sum ws + 3 * List.length ws)%nat.
Proof.
  induction ws as [|w0 ws IH]; intros i wpre acc Hp; cbn [List.length seq fold_left].
  - cbn. lia.
  - rewrite List.app_nth2 by lia. rewrite Hp, Nat.sub_diag. cbn [nth Nat.ltb Nat.leb].
    change (wpre ++ w0 :: ws)%list with (wpre ++ [w0] ++ ws)%list.
    rewrite app_assoc, (IH (S i)) by (rewrite length_app; cbn; lia).
    change (list_sum (w0 :: ws)) with (w0 + list_sum ws)%nat. lia.
Qed.

Lemma sumWidths_spec (widths : list nat) :
  widths <> [] ->
  sumWidths (List.length widths) widths
  = (list_sum widths + 3 * (List.length widths - 1))%nat.
Proof.
  destruct widths as [|w0 ws]; [congruence|]. intros _.
  change (list_sum (w0 :: ws)) with (w0 + list_sum ws)%nat.
  unfold sumWidths. cbn [List.length seq fold_left nth Nat.ltb Nat.leb].
  change (w0 :: ws) with ([w0] ++ ws)%list.
  rewrite (sumWidths_from ws 0 [w0]) by reflexivity. lia.
Qed.



Section TableTheorems.

Variable V : Type.
Variable fmt_Sprint : V -> string.

Lemma table_output (items : Items V) (headers : option (list string))
    (fields : list StructField) :
  structFields items = Some fields ->
  exportedFrom 0 fields <> [] ->
  (forall hs, headers = Some hs ->
              List.length hs = List.length (exportedFrom 0 fields)) ->
  let fieldIndices := exportedFrom 0 fields in
  let widths :=
    List.map (columnWidth (tableOf fmt_Sprint fieldIndices items headers))
      (seq 0 (List.length fieldIndices)) in
  let total := (list_sum widths + 3 * (List.length fieldIndices - 1))%nat in
  PrintStructTable fmt_Sprint items headers
  = (match headers with
     | Some hs =>
         tableLine widths hs ++ newline ++ strings_Repeat "-" total ++ newline
     | None => ""
     end
     ++ concatStrings
          (List.map (fun row => tableLine widths row ++ newline)
             (List.map (cellsOf fmt_Sprint fieldIndices) (elemsOf items))),
     None).
Proof.
  intros Hfields Hexported Hheaders fieldIndices widths total.
  assert (Hshape : exists elemType elems,
            items = sliceOf elemType elems /\
            match elemType with rPtr t => t | t => t end = rStruct fields).
  { destruct items as [|[fs|[fs| |]|] elems]; try discriminate Hfields;
      injection Hfields as ->; eexists _, _; split; reflexivity. }
  destruct Hshape as (elemType & elems & -> & HelemType).
  unfold PrintStructTable. rewrite HelemType. fold fieldIndices.
  assert (Hn : (List.length fieldIndices =? 0)%nat = false).
  { apply Nat.eqb_neq. subst fieldIndices. destruct (exportedFrom 0 fields);
      [congruence|discriminate]. }
  rewrite Hn.
  assert (Hmismatch :
    match headers with
    | Some hs => negb (List.length hs =? List.length fieldIndices)%nat
    | None => false
    end = false).
  { destruct headers as [hs|]; [|reflexivity].
    now rewrite (Hheaders hs eq_refl), Nat.eqb_refl. }
  cbv zeta. rewrite Hmismatch.
  set (rows := List.map (cellsOf fmt_Sprint fieldIndices) elems).
  assert (Hstart :
    headerWidths 0 (default [] headers) (repeat 0%nat (List.length fieldIndices))
    = fold_left raise (match headers with Some hs => [hs] | None => [] end)
        (repeat 0%nat (List.length fieldIndices))).
  { destruct headers as [hs|]; [|reflexivity]. cbn [default fold_left].
    pose proof (Hheaders hs eq_refl) as Hlen. fold fieldIndices in Hlen.
    rewrite <- Hlen. apply headerWidths_start. }
  rewrite Hstart.
  rewrite gather_all.
  2:{ destruct headers as [hs|]; cbn [fold_left].
      - rewrite raise_length; rewrite List.repeat_length; [reflexivity|].
        now apply Hheaders.
      - apply List.repeat_length. }
  fold rows. rewrite <- List.fold_left_app. cbn [app].
  change (match headers with Some hs => [hs] | None => [] end ++ rows)%list
    with (tableOf fmt_Sprint fieldIndices (sliceOf elemType elems) headers).
  assert (Hrows : Forall (fun row => List.length row = List.length fieldIndices)
                    (tableOf fmt_Sprint fieldIndices (sliceOf elemType elems) headers)).
  { unfold tableOf. apply Forall_app. split.
    - destruct headers as [hs|]; repeat constructor. now apply Hheaders.
    - cbn [elemsOf]. apply List.Forall_forall. intros row (ev & <- & _)%List.in_map_iff.
      apply cellsOf_length. }
  rewrite (fold_raise_maxima _ _ Hrows). fold widths.
  assert (Hwidths : List.length widths = List.length fieldIndices)
    by (subst widths; now rewrite List.length_map, List.length_seq).
  assert (Htotal : sumWidths (List.length fieldIndices) widths = total).
  { rewrite <- Hwidths. rewrite sumWidths_spec; [subst total; now rewrite Hwidths|].
    intros E. rewrite E in Hwidths. cbn in Hwidths. rewrite <- Hwidths in Hn.
    discriminate Hn. }
  rewrite Htotal, print_rows.
  f_equal. f_equal.
  - destruct headers as [hs|]; [|reflexivity].
    rewrite printCells_tableLine
      by (rewrite Hwidths; apply Nat.eq_le_incl; exact (Hheaders hs eq_refl)).
    reflexivity.
  - f_equal. apply List.map_ext_in. intros row (ev & <- & _)%List.in_map_iff.
    rewrite printCells_tableLine by (rewrite Hwidths, cellsOf_length; lia).
    reflexivity.
Qed.

(** X18: the printer succeeds exactly when the items are a slice of
    structs, or of pointers to structs, with at least one exported field,
    and the headers, if given, are as many as the exported fields; when it
    fails nothing is written, and a wrong number of headers is reported
    with both numbers. *)
Theorem PrintStructTable_fails_exactly (items : Items V)
    (headers : option (list string)) :
  ((PrintStructTable fmt_Sprint items headers).2 = None <->
   exists fields,
     structFields items = Some fields /\
     exportedFrom 0 fields <> [] /\
     forall hs, headers = Some hs ->
                List.length hs = List.length (exportedFrom 0 fields)) /\
  ((PrintStructTable fmt_Sprint items headers).2 <> None ->
   (PrintStructTable fmt_Sprint items headers).1 = "") /\
  (forall fields hs,
     structFields items = Some fields ->
     exportedFrom 0 fields <> [] ->
     headers = Some hs ->
     List.length hs <> List.length (exportedFrom 0 fields) ->
     PrintStructTable fmt_Sprint items headers
     = ("", Some (errors_New
                    ("headers length (" ++ decimal (List.length hs)
                     ++ ") must match number of exported fields ("
                     ++ decimal (List.length (exportedFrom 0 fields)) ++ ")")))).
Proof.
  assert (Hok : forall fields,
            structFields items = Some fields ->
            exportedFrom 0 fields <> [] ->
            (forall hs, headers = Some hs ->
                        List.length hs = List.length (exportedFrom 0 fields)) ->
            (PrintStructTable fmt_Sprint items headers).2 = None).
  { intros fields Hfields Hexported Hheaders.
    now rewrite (table_output items headers fields). }
  assert (Hshape : forall fields,
            structFields items = Some fields ->
            exists elemType elems,
              items = sliceOf elemType elems /\
              match elemType with rPtr t => t | t => t end = rStruct fields).
  { intros fields Hfields.
    destruct items as [|[fs|[fs| |]|] elems]; try discriminate Hfields;
      injection Hfields as ->; eexists _, _; split; reflexivity. }
  split; [split|split].
  - intros Hnone.
    destruct items as [|elemType elems]; [discriminate Hnone|].
    unfold PrintStructTable in Hnone.
    assert (Hstruct : exists fields,
              match elemType with rPtr t => t | t => t end = rStruct fields /\
              structFields (sliceOf elemType elems) = Some fields).
    { destruct elemType as [fs|[fs| |]|]; try discriminate Hnone;
        eexists; split; reflexivity. }
    destruct Hstruct as (fields & HelemType & Hfields).
    rewrite HelemType in Hnone. exists fields. split; [exact Hfields|].
    destruct (exportedFrom 0 fields) as [|i0 idxs] eqn:Hexported;
      [discriminate Hnone|].
    split; [discriminate|]. intros hs ->. cbv zeta in Hnone.
    destruct (List.length hs =? List.length (i0 :: idxs))%nat eqn:Hlen;
      [now apply Nat.eqb_eq|].
    cbn [negb] in Hnone. discriminate Hnone.
  - intros (fields & Hfields & Hexported & Hheaders). now apply (Hok fields).
  - intros Herr. clear Hok Hshape.
    destruct items as [|elemType elems]; [reflexivity|].
    unfold PrintStructTable in *.
    destruct elemType as [fs|[fs| |]|]; try reflexivity;
      (destruct (exportedFrom 0 fs) as [|i0 idxs]; [reflexivity|];
       change (List.length (i0 :: idxs) =? 0)%nat with false in *;
       cbv iota zeta in *;
       destruct headers as [hs|];
       [ destruct (List.length hs =? List.length (i0 :: idxs))%nat;
         cbn [negb] in *; [|reflexivity] | ];
       exfalso; apply Herr; now destruct (fold_left _ _ _)).
  - intros fields hs Hfields Hexported -> Hlen.
    destruct (Hshape fields Hfields) as (elemType & elems & -> & HelemType).
    unfold PrintStructTable. rewrite HelemType.
    destruct (exportedFrom 0 fields) as [|i0 idxs] eqn:Hidxs; [congruence|].
    change (List.length (i0 :: idxs) =? 0)%nat with false. cbv iota zeta.
    rewrite (proj2 (Nat.eqb_neq _ _) Hlen). reflexivity.
Qed.

(** X19: a call that succeeds writes, when headers are given, the header
    line and a line of dashes, then one line for each element in order;
    a line is the cells, each padded to the length of the longest entry
    of its column, header included, joined by [" | "]; the dashes are as
    many as the widths and the separators take; the cells of an element
    are its exported fields printed, and empty for a nil pointer. *)
Theorem PrintStructTable_renders (items : Items V)
    (headers : option (list string)) (fields : list StructField) :
  structFields items = Some fields ->
  exportedFrom 0 fields <> [] ->
  (forall hs, headers = Some hs ->
              List.length hs = List.length (exportedFrom 0 fields)) ->
  let fieldIndices := exportedFrom 0 fields in
  let widths :=
    List.map (columnWidth (tableOf fmt_Sprint fieldIndices items headers))
      (seq 0 (List.length fieldIndices)) in
  let total := (list_sum widths + 3 * (List.length fieldIndices - 1))%nat in
  PrintStructTable fmt_Sprint items headers
  = (match headers with
     | Some hs =>
         tableLine widths hs ++ newline ++ strings_Repeat "-" total ++ newline
     | None => ""
     end
     ++ concatStrings
          (List.map (fun row => tableLine widths row ++ newline)
             (List.map (cellsOf fmt_Sprint fieldIndices) (elemsOf items))),
     None).
Proof.
  intros Hfields Hexported Hheaders. now apply table_output.
Qed.


End TableTheorems.

(** ** The commands *)

Lemma collectActive_from (devs : list Device) :
  forall active : list activeDevice,
    fold_left
      (fun active d =>
         if Active d
         then (active ++ [mkActiveDevice (MAC d) (IP d) (Hostname d)])%list
         else active)
      devs active
    = (active
       ++ List.map (fun d => mkActiveDevice (MAC d) (IP d) (Hostname d))
            (List.filter Active devs))%list.
Proof.
  induction devs as [|d devs IH]; intros active; cbn [fold_left List.filter List.map].
  - now rewrite List.app_nil_r.
  - rewrite IH. destruct (Active d); [|reflexivity].
    cbn [List.map]. now rewrite <- List.app_assoc.
Qed.

Lemma collectActive_spec (devs : list Device) :
  collectActive devs
  = List.map (fun d => mkActiveDevice (MAC d) (IP d) (Hostname d))
      (List.filter Active devs).
Proof. unfold collectActive. now rewrite collectActive_from. Qed.

Lemma Devices_table (devs : list Device) :
  PrintStructTable fmt_Sprint (reflect_Devices devs)
    (Some ["MAC"; "IP"; "Hostname"; "Active"])
  = (listing ["MAC"; "IP"; "Hostname"; "Active"] (List.map deviceRow devs), None).
Proof.
  rewrite (table_output fieldValue fmt_Sprint (reflect_Devices devs)
             (Some ["MAC"; "IP"; "Hostname"; "Active"])
             [ mkStructField "MAC" ""; mkStructField "IP" "";
               mkStructField "Hostname" ""; mkStructField "Active" "" ]);
    [|reflexivity|discriminate|now intros hs [= <-]].
  assert (Hrows :
    List.map (cellsOf fmt_Sprint [0; 1; 2; 3]%nat) (elemsOf (reflect_Devices devs))
    = List.map deviceRow devs).
  { unfold reflect_Devices. cbn [elemsOf]. rewrite List.map_map.
    apply List.map_ext. intros d. unfold deviceRow. cbn. now destruct (Active d). }
  change (exportedFrom 0 _) with [0; 1; 2; 3]%nat.
  unfold tableOf. rewrite Hrows. unfold listing. cbn [app List.length].
  now rewrite !append_assoc.
Qed.

Lemma activeDevices_table (devs : list Device) :
  PrintStructTable fmt_Sprint (reflect_activeDevices (collectActive devs))
    (Some ["MAC"; "IP"; "Hostname"])
  = (listing ["MAC"; "IP"; "Hostname"]
       (List.map activeRow (List.filter Active devs)), None).
Proof.
  rewrite (table_output fieldValue fmt_Sprint
             (reflect_activeDevices (collectActive devs))
             (Some ["MAC"; "IP"; "Hostname"])
             [ mkStructField "MAC" ""; mkStructField "IP" "";
               mkStructField "Hostname" "" ]);
    [|reflexivity|discriminate|now intros hs [= <-]].
  assert (Hrows :
    List.map (cellsOf fmt_Sprint [0; 1; 2]%nat)
      (elemsOf (reflect_activeDevices (collectActive devs)))
    = List.map activeRow (List.filter Active devs)).
  { unfold reflect_activeDevices. cbn [elemsOf].
    rewrite collectActive_spec, !List.map_map. apply List.map_ext. reflexivity. }
  change (exportedFrom 0 _) with [0; 1; 2]%nat.
  unfold tableOf. rewrite Hrows. unfold listing. cbn [app List.length].
  now rewrite !append_assoc.
Qed.

Lemma matchLoop_spec (devs : list Device) (matcher : string) :
  matchLoop devs matcher = true <->
  exists d, In d devs /\ Active d = true /\ named matcher d.
Proof.
  induction devs as [|d devs IH]; cbn [matchLoop].
  - split; [discriminate|]. now intros (d & [] & _).
  - destruct (Active d && (MatchMAC (MAC d) matcher
                           || String.eqb (Hostname d) matcher
                           || String.eqb (IP d) matcher)) eqn:Hd.
    + split; [intros _|reflexivity].
      apply andb_true_iff in Hd as [Hactive Hnamed].
      exists d. split; [now left|]. split; [exact Hactive|].
      apply orb_true_iff in Hnamed as [Hnamed|Hip].
      * apply orb_true_iff in Hnamed as [Hmac|Hhost].
        -- left. now apply String.eqb_eq.
        -- right. left. now apply String.eqb_eq.
      * right. right. now apply String.eqb_eq.
    + rewrite IH. split.
      * intros (d' & Hin & H). exists d'. split; [now right|exact H].
      * intros (d' & [<-|Hin] & Hactive & Hnamed); [|now exists d'].
        exfalso. rewrite Hactive in Hd. cbn [andb] in Hd.
        unfold MatchMAC in Hd.
        destruct Hnamed as [Hmac|[Hhost|Hip]].
        -- apply String.eqb_eq in Hmac. now rewrite Hmac in Hd.
        -- apply String.eqb_eq in Hhost. rewrite Hhost, orb_true_r in Hd.
           discriminate Hd.
        -- apply String.eqb_eq in Hip. rewrite Hip, orb_true_r in Hd.
           discriminate Hd.
Qed.

Lemma normalizeMAC_nil_iff (mac : string) :
  normalizeMAC mac = "" <-> allBytes isSeparator mac = true.
Proof.
  induction mac as [|c rest IH]; [now split|].
  rewrite normalizeMAC_cons. cbn [allBytes].
  destruct (isSeparator c); [exact IH|]. split; discriminate.
Qed.

Section CommandFacts.

Context {rt : Runtime} {C : Type} {rc : RouterClient C}.

(** X21: the check reports a device exactly when the client gave no error
    and some device it listed is active and named by the matcher: by its
    MAC address up to case and separators, or by its host name or IP
    address exactly; the error of the client is returned as it is, with
    [false], whatever was listed; the client is asked once and nothing
    else is done. *)
Theorem CheckByMatcher_found (c : C) (matcher : string) (w w' : World)
    (devs : list Device) (err : option error) (t : list Event) :
  RouterClient_ListConnected c w = ((devs, err), w', t) ->
  exists found : bool,
    CheckByMatcher c matcher w = ((found, err), w', t) /\
    (found = true <->
     err = None /\ exists d, In d devs /\ Active d = true /\ named matcher d).
Proof.
  intros Hlist. unfold CheckByMatcher. rewrite bind_unfold, Hlist. cbn [fst snd].
  destruct err as [e|]; unfold ret; rewrite List.app_nil_r.
  - exists false. split; [reflexivity|]. split; [discriminate|]. now intros [? _].
  - exists (matchLoop devs matcher). split; [reflexivity|].
    rewrite matchLoop_spec. split; [now split|now intros [_ H]].
Qed.

(** X22: an inactive device is never reported, and a host name or an IP
    address is compared as it is: a listing in which no active device is
    named by the matcher gives [false], whatever the inactive devices
    are; the empty matcher is not refused, and is found when an active
    device has an empty host name or IP address, or a MAC address of
    separators only. *)
Theorem CheckByMatcher_edges (c : C) (w w' : World) (devs : list Device)
    (t : list Event) :
  RouterClient_ListConnected c w = ((devs, None), w', t) ->
  (forall matcher,
     Forall (fun d => Active d = false \/ ~ named matcher d) devs ->
     CheckByMatcher c matcher w = ((false, None), w', t)) /\
  (CheckByMatcher c "" w = ((true, None), w', t) <->
   exists d, In d devs /\ Active d = true /\
             (allBytes isSeparator (MAC d) = true \/ Hostname d = "" \/ IP d = "")).
Proof.
  intros Hlist.
  assert (Hrun : forall matcher,
            CheckByMatcher c matcher w = ((matchLoop devs matcher, None), w', t)).
  { intros matcher. unfold CheckByMatcher. rewrite bind_unfold, Hlist.
    unfold ret. cbn [fst snd]. now rewrite List.app_nil_r. }
  split.
  - intros matcher Hnone. rewrite Hrun.
    destruct (matchLoop devs matcher) eqn:Hloop; [|reflexivity].
    apply matchLoop_spec in Hloop as (d & Hin & Hactive & Hnamed).
    rewrite List.Forall_forall in Hnone.
    destruct (Hnone d Hin) as [Hinactive|Hnot]; [congruence|contradiction].
  - rewrite Hrun.
    assert (Hempty : forall d,
              named "" d <->
              allBytes isSeparator (MAC d) = true \/ Hostname d = "" \/ IP d = "").
    { intros d. unfold named. change (normalizeMAC "") with "".
      now rewrite normalizeMAC_nil_iff. }
    split.
    + intros [= Hloop]. apply matchLoop_spec in Hloop as (d & Hin & Hactive & Hnamed).
      exists d. now rewrite <- Hempty.
    + intros (d & Hin & Hactive & Hnamed).
      replace (matchLoop devs "") with true; [reflexivity|].
      symmetry. apply matchLoop_spec. exists d. now rewrite Hempty.
Qed.

(** X23: the listing of all devices: when the client gives an error,
    nothing is written and the error is returned; otherwise the command
    never fails and writes the header MAC, IP, Hostname, Active, the
    dashes, and one line for each device in the order of the client, its
    activity as true or false, each column as wide as its longest
    entry. *)
Theorem ListDevices_prints (c : C) (w w' : World) (devs : list Device)
    (err : option error) (t : list Event) :
  RouterClient_ListConnected c w = ((devs, err), w', t) ->
  ListDevices c w
  = ((match err with
      | Some _ => ""
      | None => listing ["MAC"; "IP"; "Hostname"; "Active"] (List.map deviceRow devs)
      end, err), w', t).
Proof.
  intros Hlist. unfold ListDevices. rewrite bind_unfold, Hlist. cbn [fst snd].
  destruct err as [e|]; unfold ret; rewrite List.app_nil_r; [reflexivity|].
  now rewrite Devices_table.
Qed.

(** X24: the listing of the active devices: when the client gives an
    error, nothing is written and the error is returned; otherwise the
    command never fails and writes the header MAC, IP, Hostname, the
    dashes, and one line for each active device, in the order of the
    client; a device that is not active has no line and does not widen a
    column. *)
Theorem ListActive_prints (c : C) (w w' : World) (devs : list Device)
    (err : option error) (t : list Event) :
  RouterClient_ListConnected c w = ((devs, err), w', t) ->
  ListActive c w
  = ((match err with
      | Some _ => ""
      | None =>
          listing ["MAC"; "IP"; "Hostname"]
            (List.map activeRow (List.filter Active devs))
      end, err), w', t).
Proof.
  intros Hlist. unfold ListActive. rewrite bind_unfold, Hlist. cbn [fst snd].
  destruct err as [e|]; unfold ret; rewrite List.app_nil_r; [reflexivity|].
  now rewrite activeDevices_table.
Qed.

End CommandFacts.

(** ** The further properties on the scripted runtimes *)

Lemma request_not_sent_on_bad_url_witness :
  doPostForm (rt := Strict.runtime) Strict.client (loginURL Strict.client) ∅
    Scripted.session
  = (inl (errorString "invalid character in host name"), Scripted.session,
     [EvPostForm (loginURL Strict.client) ∅]) /\
  doGet (rt := Strict.runtime) Strict.client (loginURL Strict.client)
    Scripted.session
  = (inl (errorString "invalid character in host name"), Scripted.session,
     [EvGet (loginURL Strict.client)]).
Proof.
  apply (request_not_sent_on_bad_url (rt := Strict.runtime)). reflexivity.
Defined.

Lemma requests_carry_common_headers_witness :
  exists post get,
    Method post = "POST" /\ Method get = "GET" /\
    Header post !! "Referer" = Some ["http://192.168.0.1/"] /\
    Header get !! "Referer" = Some ["http://192.168.0.1/"] /\
    size (Header post) = 5%nat /\ size (Header get) = 4%nat.
Proof.
  destruct (requests_carry_common_headers (rt := Scripted.runtime) Scripted.client
              (loginURL Scripted.client) ∅ Scripted.session eq_refl)
    as (post & get & _ & _ & Hpost & _ & _ & Hget & _ & _ & Hcommon & _ & Hsize
        & _ & Hsize').
  exists post, get.
  split; [exact Hpost|]. split; [exact Hget|].
  split; [exact (proj1 (proj2 (Hcommon post (or_introl eq_refl))))|].
  split; [exact (proj1 (proj2 (Hcommon get (or_intror eq_refl))))|].
  split; [exact Hsize|exact Hsize'].
Defined.

Lemma tryLogin_challenge_transport_error_witness :
  exists e,
    tryLogin (rt := Scripted.runtime) Scripted.client [inl Scripted.timeout]
    = (Some e, [], [Scripted.challenge]) /\
    Error e = "failed requesting salt: " ++ Error Scripted.timeout /\
    errors_Unwrap e = Some Scripted.timeout /\
    ListConnected (rt := Scripted.runtime) Scripted.client [inl Scripted.timeout]
    = (([], Some e), [], [Scripted.challenge]).
Proof.
  apply (tryLogin_challenge_transport_error (rt := Scripted.runtime) Scripted.client
           [inl Scripted.timeout] Scripted.timeout [] [Scripted.challenge]).
  reflexivity.
Defined.

Lemma tryLogin_submit_transport_error_witness :
  exists e,
    tryLogin (rt := Scripted.runtime) Scripted.client
      [inr "salt abc xyz"; inl Scripted.timeout]
    = (Some e, [], Scripted.upToSubmit) /\
    Error e = "failed posting hashed password: " ++ Error Scripted.timeout /\
    errors_Unwrap e = Some Scripted.timeout.
Proof.
  apply (tryLogin_submit_transport_error (rt := Scripted.runtime) Scripted.client
           [inr "salt abc xyz"; inl Scripted.timeout] "salt abc xyz"
           [inl Scripted.timeout] [Scripted.challenge] (mkSaltResp "ok" "abc" "xyz")
           Scripted.timeout [] [Scripted.submit]);
    try reflexivity; discriminate.
Defined.

Lemma tryLogin_success_inversion_witness :
  exists body sr w1 t1 resp2body w2 t2 jr rm t3,
    doPostForm (rt := Scripted.runtime) Scripted.client (loginURL Scripted.client)
      (loginForm Scripted.client "seeksalthash")
      [inr "salt abc xyz"; inr "error ok"; inl Scripted.timeout]
    = (inr body, w1, t1) /\
    json_Unmarshal_saltResp (Runtime := Scripted.runtime) body = inr sr /\
    Salt sr <> "" /\ SaltWebUI sr <> "" /\
    doPostForm (rt := Scripted.runtime) Scripted.client (loginURL Scripted.client)
      (loginForm Scripted.client
         (pbkdf2Hex (pbkdf2Hex (pass Scripted.client) (Salt sr)) (SaltWebUI sr))) w1
    = (inr resp2body, w2, t2) /\
    json_Unmarshal_map (Runtime := Scripted.runtime) resp2body = inr jr /\
    jr !! "error" = Some (anyString "ok") /\
    doGet (rt := Scripted.runtime) Scripted.client (menuURL Scripted.client) w2
    = (rm, [], t3) /\
    (Scripted.upToSubmit ++ [EvGet (menuURL Scripted.client)])%list
    = [ EvPostForm (loginURL Scripted.client) (loginForm Scripted.client "seeksalthash");
        EvHash (pass Scripted.client) (Salt sr);
        EvHash (pbkdf2Hex (pass Scripted.client) (Salt sr)) (SaltWebUI sr);
        EvPostForm (loginURL Scripted.client)
          (loginForm Scripted.client
             (pbkdf2Hex (pbkdf2Hex (pass Scripted.client) (Salt sr)) (SaltWebUI sr)));
        EvGet (menuURL Scripted.client) ].
Proof.
  apply (tryLogin_success_inversion (rt := Scripted.runtime) Scripted.client
           [inr "salt abc xyz"; inr "error ok"; inl Scripted.timeout] []
           (Scripted.upToSubmit ++ [EvGet (menuURL Scripted.client)])%list).
  reflexivity.
Defined.

Lemma ListConnected_request_bound_witness :
  let t := (Scripted.upToSubmit
            ++ [ EvGet (menuURL Scripted.client); EvGet (hostTblURL Scripted.client);
                 EvPostForm (logoutURL Scripted.client) ∅ ])%list in
  (List.length (List.filter (requestTo (loginURL Scripted.client)) t) <= 2)%nat /\
  (List.length (List.filter (requestTo (menuURL Scripted.client)) t) <= 1)%nat /\
  (List.length (List.filter (requestTo (hostTblURL Scripted.client)) t) <= 1)%nat /\
  (List.length (List.filter (requestTo (logoutURL Scripted.client)) t) <= 1)%nat /\
  (List.length (List.filter isRequest t) <= 5)%nat /\
  (List.length (List.filter isHash t) <= 2)%nat /\
  Forall (fun ev =>
            isRequest ev = true ->
            (requestTo (loginURL Scripted.client) ev
             || requestTo (menuURL Scripted.client) ev
             || requestTo (hostTblURL Scripted.client) ev
             || requestTo (logoutURL Scripted.client) ev)%bool = true) t.
Proof.
  apply (ListConnected_request_bound (rt := Scripted.runtime) Scripted.client
           Scripted.session (Scripted.devices, None) []).
  reflexivity.
Defined.

Lemma ListConnected_never_posts_password_witness :
  loginForm Scripted.client Scripted.finalHash !! "password" <> Some ["secret"] /\
  (loginForm Scripted.client Scripted.finalHash !! "username" = None \/
   loginForm Scripted.client Scripted.finalHash !! "username" = Some ["admin"]).
Proof.
  refine (ListConnected_never_posts_password (rt := Scripted.runtime) Scripted.client
            Scripted.session (Scripted.devices, None) []
            (Scripted.upToSubmit
             ++ [ EvGet (menuURL Scripted.client); EvGet (hostTblURL Scripted.client);
                  EvPostForm (logoutURL Scripted.client) ∅ ])%list
            _ _ _ (loginURL Scripted.client)
            (loginForm Scripted.client Scripted.finalHash) _);
    [discriminate|discriminate|reflexivity|].
  right. right. right. left. reflexivity.
Defined.

Lemma fetchHostTbl_status_error_witness :
  fetchHostTbl (rt := Scripted.runtime) Scripted.client [inr "hosts, error busy"]
  = (([], Some (errorString "host table returned error: busy")), [],
     [EvGet (hostTblURL Scripted.client)]).
Proof.
  apply (fetchHostTbl_status_error (rt := Scripted.runtime) Scripted.client
           [inr "hosts, error busy"] "hosts, error busy" []
           [EvGet (hostTblURL Scripted.client)]
           (mkHostTblResp "busy" "" (mkHostTblData []) ""));
    [reflexivity|reflexivity|discriminate].
Defined.

Lemma ListConnected_error_no_devices_witness :
  (ListConnected (rt := Scripted.runtime) Scripted.client Scripted.busySession).1.1.1
  = [].
Proof.
  apply (ListConnected_error_no_devices (rt := Scripted.runtime) Scripted.client
           Scripted.busySession _
           (errorString "host table returned error: busy") []
           (Scripted.upToSubmit
            ++ [ EvGet (menuURL Scripted.client); EvGet (hostTblURL Scripted.client);
                 EvPostForm (logoutURL Scripted.client) ∅ ])%list).
  reflexivity.
Defined.

Lemma MatchMAC_transitive_congruent_witness :
  (MatchMAC "aa-bb" "aa.bb" = true -> MatchMAC "AA:BB" "aa.bb" = true) /\
  (MatchMAC "CC:DD" "cc dd" = true -> MatchMAC "AA:BBCC:DD" "aa-bbcc dd" = true).
Proof.
  apply (MatchMAC_transitive_congruent "AA:BB" "aa-bb" "aa.bb" "CC:DD" "cc dd").
  reflexivity.
Defined.

Lemma PrintStructTable_renders_witness :
  PrintStructTable fmt_Sprint TableTests.two (Some ["Name"; "IP Address"; "Active"])
  = ("Name   | IP Address   | Active" ++ newline
     ++ "------------------------------" ++ newline
     ++ "Phone  | 192.168.1.10 | true  " ++ newline
     ++ "Laptop | 192.168.1.20 | false " ++ newline, None).
Proof.
  refine (eq_trans
            (PrintStructTable_renders fieldValue fmt_Sprint TableTests.two
               (Some ["Name"; "IP Address"; "Active"])
               [ mkStructField "Name" ""; mkStructField "IP" "";
                 mkStructField "Active" "" ] _ _ _) _).
  - reflexivity.
  - discriminate.
  - now intros hs [= <-].
  - reflexivity.
Defined.


Lemma CheckByMatcher_found_witness :
  exists found : bool,
    CheckByMatcher (rt := Scripted.runtime) Scripted.client "aa-bb-cc-dd-ee-ff"
      Scripted.session
    = ((found, None), [],
       (Scripted.upToSubmit
        ++ [ EvGet (menuURL Scripted.client); EvGet (hostTblURL Scripted.client);
             EvPostForm (logoutURL Scripted.client) ∅ ])%list) /\
    (found = true <->
     @None error = None /\
     exists d, In d Scripted.devices /\ Active d = true /\ named "aa-bb-cc-dd-ee-ff" d).
Proof.
  apply (CheckByMatcher_found (rt := Scripted.runtime) Scripted.client
           "aa-bb-cc-dd-ee-ff" Scripted.session).
  reflexivity.
Defined.

Lemma CheckByMatcher_edges_witness :
  CheckByMatcher (rt := Scripted.runtime) Scripted.client "laptop" Scripted.session
  = ((false, None), [],
     (Scripted.upToSubmit
      ++ [ EvGet (menuURL Scripted.client); EvGet (hostTblURL Scripted.client);
           EvPostForm (logoutURL Scripted.client) ∅ ])%list).
Proof.
  refine (proj1 (CheckByMatcher_edges (rt := Scripted.runtime) Scripted.client
                   Scripted.session [] Scripted.devices
                   (Scripted.upToSubmit
                    ++ [ EvGet (menuURL Scripted.client);
                         EvGet (hostTblURL Scripted.client);
                         EvPostForm (logoutURL Scripted.client) ∅ ])%list _)
            "laptop" _).
  - reflexivity.
  - constructor; [|constructor; [|constructor]].
    + right. intros [H|[H|H]]; discriminate H.
    + left. reflexivity.
Defined.

Lemma ListDevices_prints_witness :
  ListDevices (rt := Scripted.runtime) Scripted.client Scripted.session
  = ((listing ["MAC"; "IP"; "Hostname"; "Active"]
        (List.map deviceRow Scripted.devices), None), [],
     (Scripted.upToSubmit
      ++ [ EvGet (menuURL Scripted.client); EvGet (hostTblURL Scripted.client);
           EvPostForm (logoutURL Scripted.client) ∅ ])%list).
Proof.
  apply (ListDevices_prints (rt := Scripted.runtime) Scripted.client
           Scripted.session [] Scripted.devices None).
  reflexivity.
Defined.

Lemma ListActive_prints_witness :
  ListActive (rt := Scripted.runtime) Scripted.client Scripted.session
  = ((listing ["MAC"; "IP"; "Hostname"]
        [["AA:BB:CC:DD:EE:FF"; "192.168.0.5"; "phone"]], None), [],
     (Scripted.upToSubmit
      ++ [ EvGet (menuURL Scripted.client); EvGet (hostTblURL Scripted.client);
           EvPostForm (logoutURL Scripted.client) ∅ ])%list).
Proof.
  apply (ListActive_prints (rt := Scripted.runtime) Scripted.client
           Scripted.session [] Scripted.devices None).
  reflexivity.
Defined.

Lemma fetchHostTbl_wraps_failures_witness :
  (exists e,
     fetchHostTbl (rt := Scripted.runtime) Scripted.client [inl Scripted.timeout]
     = (([], Some e), [], [EvGet (hostTblURL Scripted.client)]) /\
     Error e = "failed fetching host table: " ++ Error Scripted.timeout /\
     errors_Unwrap e = Some Scripted.timeout) /\
  (exists e,
     fetchHostTbl (rt := Scripted.runtime) Scripted.client [inr "<html>"]
     = (([], Some e), [], [EvGet (hostTblURL Scripted.client)]) /\
     Error e = "failed parsing host table JSON: invalid character" /\
     errors_Unwrap e = Some (errorString "invalid character")).
Proof.
  split.
  - refine (proj1 (fetchHostTbl_wraps_failures (rt := Scripted.runtime)
                     Scripted.client [inl Scripted.timeout])
              Scripted.timeout [] [EvGet (hostTblURL Scripted.client)] _).
    reflexivity.
  - refine (proj2 (fetchHostTbl_wraps_failures (rt := Scripted.runtime)
                     Scripted.client [inr "<html>"])
              "<html>" (errorString "invalid character") []
              [EvGet (hostTblURL Scripted.client)] _ _); reflexivity.
Defined.

Lemma normalizeMAC_empty_witness :
  normalizeMAC "-:. " = "" /\ MatchMAC "-:. " "" = true.
Proof.
  split.
  - exact (proj2 (proj1 (normalizeMAC_empty "-:. ")) eq_refl).
  - exact (proj2 (normalizeMAC_empty "-:. ") eq_refl).
Defined.

Lemma padRight_pads_witness : padRight "abc" 2 = "abc".
Proof. exact (proj2 (proj2 (padRight_pads "abc" 2)) (le_S 2 2 (le_n 2))). Defined.

Lemma PrintStructTable_fails_exactly_witness :
  PrintStructTable fmt_Sprint TableTests.two (Some ["Name"; "IP"])
  = ("", Some (errors_New
                 "headers length (2) must match number of exported fields (3)")) /\
  (PrintStructTable fmt_Sprint TableTests.two None).2 = None.
Proof.
  split.
  - refine (proj2 (proj2 (PrintStructTable_fails_exactly fieldValue fmt_Sprint
                            TableTests.two (Some ["Name"; "IP"])))
              [ mkStructField "Name" ""; mkStructField "IP" "";
                mkStructField "Active" "" ] ["Name"; "IP"] _ _ _ _);
      [reflexivity|discriminate|reflexivity|discriminate].
  - refine (proj2 (proj1 (PrintStructTable_fails_exactly fieldValue fmt_Sprint
                            TableTests.two None)) _).
    exists [ mkStructField "Name" ""; mkStructField "IP" "";
             mkStructField "Active" "" ].
    split; [reflexivity|]. split; discriminate.
Defined.
